(** * scripts/fix_file.py: the line patcher of [shared/chamber-members.ts]

    A shallow embedding of the script and the properties of its scan.

    - Python [str] values are lists of Unicode code points ([N]).
    - [lines[k]] is a partial operation: out of range it raises
      [IndexError], so the embedding runs in a small error monad.
    - The two [while] loops with a lookahead cursor and the main [while]
      loop are fixpoints on a fuel; [fix_lines] runs them with fuel
      [len(lines)], which the theorems show is always enough.
    - The embedding starts at [content], the string that [f.read()]
      returns, and ends at the string handed to [f.write]: opening the file,
      decoding it and the newline translation of text mode, as well as
      [print], belong to the Python runtime and are not modelled. *)

From Stdlib Require Import NArith Ascii String List Lia.
From stdpp Require Import base decidable option list numbers strings.

Local Open Scope N_scope.
Local Open Scope nat_scope.
Local Open Scope list_scope.

(** ** Python strings *)

Abbreviation char := N.
Abbreviation pystr := (list N).

(** A source-code literal.  All literals of the script are ASCII. *)
Definition py (s : string) : pystr := N_of_ascii <$> list_ascii_of_string s.

(** [str.isspace] on one code point, as [str.strip()] uses it: the ASCII
    table (TAB..CR, FS..US, SPACE) and the Unicode white-space property
    (NEL, NBSP, OGHAM SPACE MARK, EN QUAD..HAIR SPACE, LS, PS, NNBSP, MMSP,
    IDEOGRAPHIC SPACE). *)
Definition isspace (c : char) : bool :=
  ((9 <=? c) && (c <=? 13) || (28 <=? c) && (c <=? 32)
   || (c =? 133) || (c =? 160) || (c =? 5760)
   || (8192 <=? c) && (c <=? 8202)
   || (c =? 8232) || (c =? 8233) || (c =? 8239) || (c =? 8287)
   || (c =? 12288))%N.

Fixpoint lstrip (s : pystr) : pystr :=
  match s with
  | c :: s' => if isspace c then lstrip s' else s
  | [] => []
  end.

Definition rstrip (s : pystr) : pystr := rev (lstrip (rev s)).

(** [s.strip()] *)
Definition strip (s : pystr) : pystr := rstrip (lstrip s).

(** [s.startswith(prefix)] *)
Fixpoint startswith (s prefix : pystr) {struct prefix} : bool :=
  match prefix, s with
  | [], _ => true
  | p :: prefix', c :: s' => (c =? p)%N && startswith s' prefix'
  | _ :: _, [] => false
  end.

Arguments startswith _ _ : simpl nomatch.

(** [content.split('\n')]: never empty, one more piece than separators. *)
Fixpoint split (sep : char) (s : pystr) : list pystr :=
  match s with
  | [] => [[]]
  | c :: s' =>
      if (c =? sep)%N then [] :: split sep s'
      else match split sep s' with
           | piece :: pieces => (c :: piece) :: pieces
           | [] => [[c]]
           end
  end.

(** ['\n'.join(result)] *)
Fixpoint join (sep : char) (pieces : list pystr) : pystr :=
  match pieces with
  | [] => []
  | [piece] => piece
  | piece :: pieces' => piece ++ sep :: join sep pieces'
  end.

Definition NL : char := 10%N.

(** ** The error monad of the script *)

(** The exceptions of the script: [IndexError] from [lines[k]], and
    [FileNotFoundError] from [open], which is raised before the scan starts
    and by no function below. *)
Inductive exn : Type := IndexError | FileNotFoundError.

Inductive outcome (A : Type) : Type :=
| Done (a : A)
| Raise (e : exn)
| OutOfFuel.

Arguments Done {A} a.
Arguments Raise {A} e.
Arguments OutOfFuel {A}.

Definition bind {A B} (m : outcome A) (k : A -> outcome B) : outcome B :=
  match m with
  | Done a => k a
  | Raise e => Raise e
  | OutOfFuel => OutOfFuel
  end.

Notation "x <- m ; k" := (bind m (fun x => k))
  (at level 20, m at level 100, k at level 200, only parsing).
Notation "' p <- m ; k" := (bind m (fun x => match x with p => k end))
  (at level 20, p pattern, m at level 100, k at level 200, only parsing).

(** [l[k]] for a non-negative [k] *)
Definition getitem {A} (l : list A) (k : nat) : outcome A :=
  match l !! k with
  | Some x => Done x
  | None => Raise IndexError
  end.

(** [a and b], where [b] is only evaluated when [a] is true *)
Definition and_then (a : bool) (b : outcome bool) : outcome bool :=
  if a then b else Done false.

(** [a or b], where [b] is only evaluated when [a] is false *)
Definition or_else (a : bool) (b : outcome bool) : outcome bool :=
  if a then Done true else b.

(** ** The line tests of the scan *)

Definition INNER_CLOSE : pystr := py "    },".
Definition OUTER_CLOSE : pystr := py "  },".
Definition BLOCK_OPEN : pystr := py "  {".

(** [line.strip() == '},' and line.startswith('    ')] *)
Definition is_inner_close (line : pystr) : bool :=
  bool_decide (strip line = py "},") && startswith line (py "    ").

(** [stripped == '' or stripped.startswith('//')] with
    [stripped = line.strip()] *)
Definition is_blank_or_comment (line : pystr) : bool :=
  let stripped := strip line in
  bool_decide (stripped = py "") || startswith stripped (py "//").

(** ** The scan *)

Record state : Type := State { st_i : nat; st_result : list pystr }.

(** Rule 1 lookahead, lines 24-38: returns [(j, buffer, found_array_start)]
    as they are when the loop is left. *)
Fixpoint lookahead (fuel : nat) (lines : list pystr) (j : nat)
    (buffer : list pystr) : outcome (nat * list pystr * bool) :=
  if j <? length lines then
    match fuel with
    | O => OutOfFuel
    | S fuel' =>
        next_line <- getitem lines j ;
        let stripped := strip next_line in
        if bool_decide (stripped = py "") || startswith stripped (py "//")
        then lookahead fuel' lines (j + 1) (buffer ++ [next_line])
        else if bool_decide (next_line = BLOCK_OPEN) then Done (j, buffer, true)
        else if bool_decide (next_line = OUTER_CLOSE) then Done (j, buffer, false)
        else Done (j, buffer, false)
    end
  else Done (j, buffer, false).

(** Rule 2 lookahead, lines 60-61: returns [j] as it is when the loop is
    left. *)
Fixpoint skip_run (fuel : nat) (lines : list pystr) (j : nat) : outcome nat :=
  go <- and_then (j <? length lines)
          (l <- getitem lines j ;
           or_else (bool_decide (strip l = py ""))
             (l' <- getitem lines j ;
              Done (startswith (strip l') (py "//")))) ;
  if go then
    match fuel with
    | O => OutOfFuel
    | S fuel' => skip_run fuel' lines (j + 1)
    end
  else Done j.

(** [any(l == '  },' for l in buffer)] *)
Definition has_close (buffer : list pystr) : bool :=
  existsb (fun l => bool_decide (l = OUTER_CLOSE)) buffer.

(** One iteration of the main loop (lines 11-75), entered with
    [i < len(lines)].  The lookahead starts at [i + 1] and only moves
    forward, so [j - 1] on [nat] is the integer difference of line 47; the
    [i += 1] of line 75 (and of line 66, before [continue]) is the [+ 1] of
    the state returned. *)
Definition body (lines : list pystr) (st : state) : outcome state :=
  let i := st_i st in
  let result := st_result st in
  line <- getitem lines i ;
  if is_inner_close line then
    let result := result ++ [line] in
    '(j, buffer, found_array_start) <-
       lookahead (length lines) lines (i + 1) [] ;
    if found_array_start then
      let result := if negb (has_close buffer) then result ++ [OUTER_CLOSE]
                    else result in
      let result := result ++ buffer in
      let i := j - 1 in
      Done (State (i + 1) result)
    else Done (State (i + 1) result)
  else if bool_decide (line = OUTER_CLOSE) then
    fine <- and_then (i + 1 <? length lines)
              (next_line <- getitem lines (i + 1) ;
               Done (bool_decide (next_line = BLOCK_OPEN))) ;
    if fine then Done (State (i + 1) (result ++ [line]))
    else
      further <- and_then (i + 1 <? length lines)
                   (next_line <- getitem lines (i + 1) ;
                    Done (bool_decide (strip next_line = py ""))) ;
      if further then
        j <- skip_run (length lines) lines (i + 1) ;
        misplaced <- and_then (j <? length lines)
                       (l <- getitem lines j ;
                        Done (bool_decide (l = BLOCK_OPEN))) ;
        if misplaced then Done (State (i + 1) result)
        else Done (State (i + 1) (result ++ [line]))
      else Done (State (i + 1) (result ++ [line]))
  else Done (State (i + 1) (result ++ [line])).

(** [while i < len(lines): ...] *)
Fixpoint scan_loop (fuel : nat) (lines : list pystr) (st : state)
    : outcome (list pystr) :=
  if st_i st <? length lines then
    match fuel with
    | O => OutOfFuel
    | S fuel' => st' <- body lines st ; scan_loop fuel' lines st'
    end
  else Done (st_result st).

(** Lines 6-75: from the lines of the file to [result]. *)
Definition fix_lines (lines : list pystr) : outcome (list pystr) :=
  scan_loop (length lines) lines (State 0 []).

(** Lines 6-78: from [content], the string read, to the string written. *)
Definition fix_content (content : pystr) : outcome pystr :=
  result <- fix_lines (split NL content) ;
  Done (join NL result).

(** ** A structural reading of the scan

    What one line contributes to [result] depends on the line and on the
    lines after it only; [patch] collects the contributions.  The scan is
    shown to compute [patch] ([fix_lines_patch]). *)

(** The lines after the leading run of blank and comment-only lines. *)
Fixpoint after_run (ls : list pystr) : list pystr :=
  match ls with
  | l :: ls' => if is_blank_or_comment l then after_run ls' else ls
  | [] => []
  end.

(** The leading run of blank and comment-only lines. *)
Fixpoint leading_run (ls : list pystr) : list pystr :=
  match ls with
  | l :: ls' => if is_blank_or_comment l then l :: leading_run ls' else []
  | [] => []
  end.

(** The run is followed by [BLOCK_OPEN]. *)
Definition opens (ls : list pystr) : bool :=
  match after_run ls with
  | l :: _ => bool_decide (l = BLOCK_OPEN)
  | [] => false
  end.

Definition emit (line : pystr) (rest : list pystr) : list pystr :=
  if is_inner_close line then
    if opens rest then [line; OUTER_CLOSE] else [line]
  else if bool_decide (line = OUTER_CLOSE) then
    match rest with
    | next_line :: _ =>
        if bool_decide (next_line = BLOCK_OPEN) then [line]
        else if bool_decide (strip next_line = py "") && opens rest then []
        else [line]
    | [] => [line]
    end
  else [line].

Fixpoint patch (lines : list pystr) : list pystr :=
  match lines with
  | [] => []
  | line :: rest => emit line rest ++ patch rest
  end.

(** A line that is neither blank, nor a comment, nor [BLOCK_OPEN] ends both
    lookaheads the way the end of the file does, so the scan of what comes
    before it does not depend on what comes after it ([patch_app_stop]). *)
Definition stops (x : pystr) : Prop :=
  is_blank_or_comment x = false /\ x <> BLOCK_OPEN.

(** The states the main loop goes through. *)
Inductive visits (lines : list pystr) : state -> Prop :=
| visits_start : visits lines (State 0 [])
| visits_next st st' :
    visits lines st -> st_i st < length lines -> body lines st = Done st' ->
    visits lines st'.

(** ** Facts about the line tests *)

Lemma strip_inner_close : strip INNER_CLOSE = py "},".
Proof. reflexivity. Qed.

Lemma inner_close_is_inner_close : is_inner_close INNER_CLOSE = true.
Proof. reflexivity. Qed.

Lemma outer_close_not_inner : is_inner_close OUTER_CLOSE = false.
Proof. reflexivity. Qed.

Lemma block_open_not_inner : is_inner_close BLOCK_OPEN = false.
Proof. reflexivity. Qed.

Lemma outer_close_not_skipped : is_blank_or_comment OUTER_CLOSE = false.
Proof. reflexivity. Qed.

Lemma block_open_not_skipped : is_blank_or_comment BLOCK_OPEN = false.
Proof. reflexivity. Qed.

Lemma inner_close_not_skipped line :
  is_inner_close line = true -> is_blank_or_comment line = false.
Proof.
  unfold is_inner_close, is_blank_or_comment.
  intros H. apply andb_prop in H as [H _].
  apply bool_decide_eq_true in H. rewrite H. reflexivity.
Qed.

Lemma skipped_not_inner line :
  is_blank_or_comment line = true -> is_inner_close line = false.
Proof.
  intros H. destruct (is_inner_close line) eqn:E; [|reflexivity].
  apply inner_close_not_skipped in E. congruence.
Qed.

Lemma skipped_not_outer line :
  is_blank_or_comment line = true -> line <> OUTER_CLOSE.
Proof. intros H ->. discriminate H. Qed.

Lemma skipped_not_open line :
  is_blank_or_comment line = true -> line <> BLOCK_OPEN.
Proof. intros H ->. discriminate H. Qed.

Lemma blank_is_skipped line :
  strip line = py "" -> is_blank_or_comment line = true.
Proof. unfold is_blank_or_comment. intros ->. reflexivity. Qed.

Lemma emit_skipped line rest :
  is_blank_or_comment line = true -> emit line rest = [line].
Proof.
  intros H. unfold emit. rewrite (skipped_not_inner _ H).
  rewrite bool_decide_eq_false_2; [reflexivity|].
  by apply skipped_not_outer.
Qed.

Lemma leading_after_run ls : leading_run ls ++ after_run ls = ls.
Proof.
  induction ls as [|l ls IH]; simpl; [reflexivity|].
  destruct (is_blank_or_comment l); simpl; [by rewrite IH | reflexivity].
Qed.

Lemma leading_run_skipped ls :
  Forall (fun l => is_blank_or_comment l = true) (leading_run ls).
Proof.
  induction ls as [|l ls IH]; simpl; [constructor|].
  destruct (is_blank_or_comment l) eqn:E; by constructor.
Qed.

Lemma patch_leading_run ls : patch ls = leading_run ls ++ patch (after_run ls).
Proof.
  induction ls as [|l ls IH]; simpl; [reflexivity|].
  destruct (is_blank_or_comment l) eqn:E; simpl; [|reflexivity].
  by rewrite emit_skipped, IH.
Qed.

Lemma run_app_stop buf l rest :
  Forall (fun l => is_blank_or_comment l = true) buf ->
  is_blank_or_comment l = false ->
  leading_run (buf ++ l :: rest) = buf /\
  after_run (buf ++ l :: rest) = l :: rest.
Proof.
  intros Hbuf Hl. induction Hbuf as [|b buf Hb _ [IH1 IH2]]; simpl.
  - by rewrite Hl.
  - rewrite Hb. by rewrite IH1, IH2.
Qed.

Lemma run_all buf :
  Forall (fun l => is_blank_or_comment l = true) buf ->
  leading_run buf = buf /\ after_run buf = [].
Proof.
  intros Hbuf. induction Hbuf as [|b buf Hb _ [IH1 IH2]]; simpl; [done|].
  rewrite Hb. by rewrite IH1, IH2.
Qed.

(** ** The loops compute the structural reading *)

Lemma getitem_lookup {A} (l : list A) k x : l !! k = Some x -> getitem l k = Done x.
Proof. unfold getitem. by intros ->. Qed.

Lemma opens_skipped l rest :
  is_blank_or_comment l = true -> opens (l :: rest) = opens rest.
Proof. intros H. unfold opens. simpl. by rewrite H. Qed.

Lemma opens_stop l rest :
  is_blank_or_comment l = false ->
  opens (l :: rest) = bool_decide (l = BLOCK_OPEN).
Proof. intros H. unfold opens. simpl. by rewrite H. Qed.

Lemma lookahead_spec fuel lines : forall j buffer,
  length lines - j <= fuel ->
  lookahead fuel lines j buffer =
    Done (j + length (leading_run (drop j lines)),
          buffer ++ leading_run (drop j lines),
          opens (drop j lines)).
Proof.
  induction fuel as [|fuel IH]; intros j buffer Hfuel.
  - simpl. destruct (Nat.ltb_spec j (length lines)) as [Hlt|Hge]; [lia|].
    rewrite drop_ge by lia. simpl. by rewrite Nat.add_0_r, app_nil_r.
  - simpl. destruct (Nat.ltb_spec j (length lines)) as [Hlt|Hge].
    + destruct (lookup_lt_is_Some_2 lines j Hlt) as [x Hx].
      rewrite (getitem_lookup _ _ _ Hx). simpl.
      rewrite (drop_S _ _ _ Hx).
      change (bool_decide (strip x = py "") || startswith (strip x) (py "//"))
        with (is_blank_or_comment x).
      destruct (is_blank_or_comment x) eqn:E.
      * rewrite IH by lia. simpl. rewrite E. simpl.
        rewrite (opens_skipped _ _ E).
        replace (j + 1) with (S j) by lia.
        rewrite <- app_assoc. simpl. do 3 f_equal. lia.
      * simpl. rewrite E. simpl. rewrite (opens_stop _ _ E).
        rewrite Nat.add_0_r, app_nil_r.
        destruct (bool_decide (x = BLOCK_OPEN)); [reflexivity|].
        by destruct (bool_decide (x = OUTER_CLOSE)).
    + rewrite drop_ge by lia. simpl. by rewrite Nat.add_0_r, app_nil_r.
Qed.

Lemma skip_run_spec fuel lines : forall j,
  length lines - j <= fuel ->
  skip_run fuel lines j = Done (j + length (leading_run (drop j lines))).
Proof.
  induction fuel as [|fuel IH]; intros j Hfuel.
  - simpl. destruct (Nat.ltb_spec j (length lines)) as [Hlt|Hge]; [lia|].
    rewrite drop_ge by lia. simpl. by rewrite Nat.add_0_r.
  - simpl. destruct (Nat.ltb_spec j (length lines)) as [Hlt|Hge].
    + destruct (lookup_lt_is_Some_2 lines j Hlt) as [x Hx].
      simpl. rewrite (getitem_lookup _ _ _ Hx). simpl.
      rewrite (drop_S _ _ _ Hx).
      assert (Hgo : or_else (bool_decide (strip x = py ""))
                      (Done (startswith (strip x) (py "//")))
                    = Done (is_blank_or_comment x)).
      { unfold is_blank_or_comment. simpl.
        by destruct (bool_decide (strip x = py "")). }
      rewrite Hgo. simpl. destruct (is_blank_or_comment x) eqn:E; simpl.
      * rewrite IH by lia. replace (j + 1) with (S j) by lia.
        f_equal. lia.
      * by rewrite Nat.add_0_r.
    + simpl. rewrite drop_ge by lia. simpl. by rewrite Nat.add_0_r.
Qed.

Lemma has_close_skipped buffer :
  Forall (fun l => is_blank_or_comment l = true) buffer ->
  has_close buffer = false.
Proof.
  intros H. induction H as [|b buffer Hb _ IH]; simpl; [reflexivity|].
  rewrite IH. rewrite bool_decide_eq_false_2; [reflexivity|].
  by apply skipped_not_outer.
Qed.

Lemma lookup_after_run (ls : list pystr) :
  after_run ls = drop (length (leading_run ls)) ls.
Proof.
  induction ls as [|l ls IH]; simpl; [reflexivity|].
  destruct (is_blank_or_comment l); simpl; [apply IH | reflexivity].
Qed.

Lemma opens_lookup (ls : list pystr) :
  opens ls = bool_decide (ls !! length (leading_run ls) = Some BLOCK_OPEN).
Proof.
  unfold opens. induction ls as [|l ls IH]; simpl; [reflexivity|].
  destruct (is_blank_or_comment l) eqn:E; simpl; [apply IH|].
  apply bool_decide_ext. split; congruence.
Qed.

Lemma leading_run_length_le (ls : list pystr) :
  length (leading_run ls) <= length ls.
Proof.
  induction ls as [|l ls IH]; simpl; [lia|].
  destruct (is_blank_or_comment l); simpl; lia.
Qed.

Lemma opens_run_lt (ls : list pystr) :
  opens ls = true -> length (leading_run ls) < length ls.
Proof.
  rewrite opens_lookup. intros H%bool_decide_eq_true.
  by apply lookup_lt_Some in H.
Qed.

Lemma guarded_test (lines : list pystr) j (f : pystr -> bool) :
  and_then (j <? length lines) (bind (getitem lines j) (fun l => Done (f l)))
  = Done (match lines !! j with Some l => f l | None => false end).
Proof.
  destruct (Nat.ltb_spec j (length lines)) as [Hlt|Hge]; simpl.
  - destruct (lookup_lt_is_Some_2 lines j Hlt) as [x Hx].
    by rewrite (getitem_lookup _ _ _ Hx), Hx.
  - by rewrite lookup_ge_None_2.
Qed.

(** One iteration, in closed form: either rule 1 inserts and jumps to the
    line that ended the lookahead, or the line contributes [emit] and the
    cursor moves by one. *)
Lemma body_spec lines i r line :
  lines !! i = Some line ->
  body lines (State i r) =
    Done (if is_inner_close line && opens (drop (S i) lines)
          then State (S i + length (leading_run (drop (S i) lines)))
                 (r ++ line :: OUTER_CLOSE :: leading_run (drop (S i) lines))
          else State (S i) (r ++ emit line (drop (S i) lines))).
Proof.
  intros Hline. unfold body, emit. simpl.
  rewrite (getitem_lookup _ _ _ Hline). simpl.
  replace (i + 1) with (S i) by lia.
  destruct (is_inner_close line) eqn:Einner; simpl.
  - rewrite lookahead_spec by lia. simpl.
    destruct (opens (drop (S i) lines)) eqn:Eopen.
    + rewrite has_close_skipped by apply leading_run_skipped. simpl.
      rewrite <- !app_assoc. simpl. f_equal. f_equal. lia.
    + reflexivity.
  - destruct (bool_decide (line = OUTER_CLOSE)) eqn:Eouter; [|reflexivity].
    rewrite !guarded_test. simpl.
    destruct (lines !! S i) as [next_line|] eqn:Enext.
    + rewrite (drop_S _ _ _ Enext).
      destruct (bool_decide (next_line = BLOCK_OPEN)); simpl; [reflexivity|].
      destruct (bool_decide (strip next_line = py "")); simpl; [|reflexivity].
      rewrite skip_run_spec by lia. simpl.
      rewrite guarded_test. simpl.
      rewrite (drop_S _ _ _ Enext).
      rewrite (opens_lookup (next_line :: _)).
      rewrite <- (drop_S _ _ _ Enext), lookup_drop.
      rewrite Nat.add_succ_l.
      destruct (lines !! S (i + _)) as [l|] eqn:El.
      * repeat case_bool_decide; simplify_eq; by rewrite ?app_nil_r.
      * by case_bool_decide.
    + rewrite drop_ge; [reflexivity|]. by apply lookup_ge_None.
Qed.

Lemma leading_run_lookup (ls : list pystr) m :
  m < length (leading_run ls) ->
  exists l, ls !! m = Some l /\ is_blank_or_comment l = true.
Proof.
  intros Hm.
  destruct (lookup_lt_is_Some_2 _ _ Hm) as [l Hl].
  exists l. split.
  - rewrite <- (leading_after_run ls). by rewrite lookup_app_l.
  - pose proof (leading_run_skipped ls) as Hall.
    rewrite Forall_lookup in Hall. by apply (Hall m).
Qed.

(** What an iteration does to the cursor and to the output still owed. *)
Lemma body_step lines i r :
  i < length lines ->
  exists st',
    body lines (State i r) = Done st' /\
    i < st_i st' <= length lines /\
    st_result st' ++ patch (drop (st_i st') lines) = r ++ patch (drop i lines) /\
    (forall k, i < k < st_i st' ->
       exists l, lines !! k = Some l /\ is_blank_or_comment l = true).
Proof.
  intros Hlt.
  destruct (lookup_lt_is_Some_2 lines i Hlt) as [line Hline].
  rewrite (body_spec _ _ _ _ Hline).
  rewrite (drop_S _ _ _ Hline). simpl patch.
  set (rest := drop (S i) lines).
  assert (Hrest : length rest = length lines - S i)
    by (unfold rest; by rewrite length_drop).
  destruct (is_inner_close line && opens rest) eqn:E.
  - apply andb_prop in E as [Einner Eopen].
    eexists. split; [reflexivity|]. simpl.
    pose proof (opens_run_lt _ Eopen) as Hrun.
    split; [lia|]. split.
    + unfold emit. rewrite Einner, Eopen.
      rewrite (patch_leading_run rest), lookup_after_run.
      replace (drop (length (leading_run rest)) rest)
        with (drop (S (i + length (leading_run rest))) lines)
        by (unfold rest; rewrite drop_drop; f_equal; lia).
      rewrite <- !app_assoc. simpl. reflexivity.
    + intros k Hk.
      destruct (leading_run_lookup rest (k - S i)) as [l [Hl Hs]]; [lia|].
      exists l. split; [|done].
      unfold rest in Hl. rewrite lookup_drop in Hl.
      by replace (S i + (k - S i)) with k in Hl by lia.
  - eexists. split; [reflexivity|]. simpl.
    split; [lia|]. split.
    + by rewrite <- app_assoc.
    + intros k Hk. lia.
Qed.

Lemma scan_loop_spec fuel lines : forall i r,
  i <= length lines -> length lines - i <= fuel ->
  scan_loop fuel lines (State i r) = Done (r ++ patch (drop i lines)).
Proof.
  induction fuel as [|fuel IH]; intros i r Hi Hfuel.
  - simpl. destruct (Nat.ltb_spec i (length lines)); [lia|].
    rewrite drop_ge by lia. simpl. by rewrite app_nil_r.
  - simpl. destruct (Nat.ltb_spec i (length lines)) as [Hlt|Hge].
    + destruct (body_step lines i r Hlt) as ([i' r'] & -> & Hi' & Hout & _).
      simpl in *. rewrite IH by lia. by rewrite Hout.
    + rewrite drop_ge by lia. simpl. by rewrite app_nil_r.
Qed.

(** The scan computes [patch]; in particular it returns. *)
Lemma fix_lines_patch lines : fix_lines lines = Done (patch lines).
Proof. unfold fix_lines. rewrite scan_loop_spec by lia. reflexivity. Qed.

(** More fuel than [len(lines)] changes nothing. *)
Lemma scan_loop_enough fuel lines :
  length lines <= fuel ->
  scan_loop fuel lines (State 0 []) = fix_lines lines.
Proof.
  intros H. rewrite fix_lines_patch, scan_loop_spec by lia. reflexivity.
Qed.

(** ** Lines that end every lookahead without a match *)

Lemma inner_close_stops line : is_inner_close line = true -> stops line.
Proof.
  intros H. split; [by apply inner_close_not_skipped|].
  intros ->. discriminate H.
Qed.

Lemma outer_close_stops : stops OUTER_CLOSE.
Proof. split; [reflexivity|discriminate]. Qed.

Lemma opens_app_stop pre x rest :
  stops x -> opens (pre ++ x :: rest) = opens pre.
Proof.
  intros [Hx Hne]. induction pre as [|a pre IH]; simpl.
  - rewrite (opens_stop _ _ Hx). by rewrite bool_decide_eq_false_2.
  - destruct (is_blank_or_comment a) eqn:Ea.
    + by rewrite !(opens_skipped _ _ Ea).
    + by rewrite !(opens_stop _ _ Ea).
Qed.

Lemma emit_app_stop line pre x rest :
  stops x -> emit line (pre ++ x :: rest) = emit line pre.
Proof.
  intros Hstop. unfold emit. rewrite (opens_app_stop _ _ _ Hstop).
  destruct pre as [|a pre]; [|reflexivity]. simpl.
  destruct Hstop as [Hx Hne].
  destruct (is_inner_close line); [reflexivity|].
  destruct (bool_decide (line = OUTER_CLOSE)); [|reflexivity].
  rewrite bool_decide_eq_false_2 by done.
  rewrite bool_decide_eq_false_2; [reflexivity|].
  intros Hblank. apply blank_is_skipped in Hblank. congruence.
Qed.

Lemma patch_app_stop pre x rest :
  stops x -> patch (pre ++ x :: rest) = patch pre ++ patch (x :: rest).
Proof.
  intros Hstop. induction pre as [|a pre IH]; [reflexivity|].
  simpl app. cbn [patch]. rewrite IH, (emit_app_stop _ _ _ _ Hstop).
  by rewrite <- app_assoc.
Qed.

Lemma patch_skipped buf rest :
  Forall (fun l => is_blank_or_comment l = true) buf ->
  patch (buf ++ rest) = buf ++ patch rest.
Proof.
  intros H. induction H as [|b buf Hb _ IH]; [reflexivity|].
  simpl. by rewrite (emit_skipped _ _ Hb), IH.
Qed.

Lemma opens_run_open buf rest :
  Forall (fun l => is_blank_or_comment l = true) buf ->
  opens (buf ++ BLOCK_OPEN :: rest) = true.
Proof.
  intros H. induction H as [|b buf Hb _ IH]; [reflexivity|].
  simpl. by rewrite (opens_skipped _ _ Hb).
Qed.

Lemma opens_run_other buf x rest :
  Forall (fun l => is_blank_or_comment l = true) buf ->
  stops x -> opens (buf ++ x :: rest) = false.
Proof.
  intros H Hx. rewrite (opens_app_stop _ _ _ Hx).
  unfold opens. by rewrite (proj2 (run_all _ H)).
Qed.

Lemma opens_run_end buf :
  Forall (fun l => is_blank_or_comment l = true) buf -> opens buf = false.
Proof. intros H. unfold opens. by rewrite (proj2 (run_all _ H)). Qed.

(** ** The cursor visits every line that is not blank or a comment *)

Lemma visits_invariant lines st :
  visits lines st ->
  st_i st <= length lines /\
  st_result st ++ patch (drop (st_i st) lines) = patch lines.
Proof.
  induction 1 as [|[i r] st' Hv [IHi IHr] Hlt Hbody]; simpl in *.
  - split; [lia|]. by rewrite drop_0.
  - destruct (body_step lines i r Hlt) as (st'' & Hb & Hi & Hout & _).
    rewrite Hb in Hbody. injection Hbody as <-.
    split; [lia|]. by rewrite Hout.
Qed.

Lemma visits_onward lines k :
  k <= length lines ->
  (forall l, lines !! k = Some l -> is_blank_or_comment l = false) ->
  forall n i r, k - i <= n -> i <= k ->
    visits lines (State i r) -> exists r', visits lines (State k r').
Proof.
  intros Hk Hstop. induction n as [|n IH]; intros i r Hn Hi Hv.
  - replace k with i by lia. eauto.
  - destruct (decide (i = k)) as [->|Hne]; [eauto|].
    assert (Hlt : i < length lines) by lia.
    destruct (body_step lines i r Hlt) as ([i' r'] & Hb & Hi' & _ & Hskip).
    simpl in *.
    assert (i' <= k).
    { destruct (decide (i' <= k)) as [|Hgt]; [done|].
      destruct (Hskip k) as (l & Hl & Hs); [lia|].
      rewrite (Hstop _ Hl) in Hs. discriminate. }
    apply (IH i' r'); [lia|lia|].
    by apply (visits_next lines (State i r)).
Qed.

Lemma visits_line lines k :
  k <= length lines ->
  (forall l, lines !! k = Some l -> is_blank_or_comment l = false) ->
  exists r, visits lines (State k r).
Proof.
  intros Hk Hstop.
  apply (visits_onward lines k Hk Hstop k 0 []); [lia|lia|constructor].
Qed.

(** At a line that [stops], the result so far is the scan of the lines
    before it. *)
Lemma visits_stop pre x rest :
  stops x ->
  visits (pre ++ x :: rest) (State (length pre) (patch pre)).
Proof.
  intros Hstop.
  destruct (visits_line (pre ++ x :: rest) (length pre)) as [r Hv].
  - rewrite length_app. lia.
  - intros l. rewrite list_lookup_middle by done. intros [= <-]. apply Hstop.
  - destruct (visits_invariant _ _ Hv) as [_ Hr]. simpl in Hr.
    rewrite drop_app_length, (patch_app_stop _ _ _ Hstop) in Hr.
    apply app_inv_tail in Hr. by rewrite <- Hr.
Qed.

(** ** Rule 1: the missing close after an inner close *)

Lemma drop_past_middle {A} (pre : list A) x rest :
  drop (S (length pre)) (pre ++ x :: rest) = rest.
Proof. induction pre as [|a pre IH]; simpl; [by rewrite drop_0 | apply IH]. Qed.

Lemma body_at_stop pre x rest :
  body (pre ++ x :: rest) (State (length pre) (patch pre)) =
    Done (if is_inner_close x && opens rest
          then State (S (length pre) + length (leading_run rest))
                 (patch pre ++ x :: OUTER_CLOSE :: leading_run rest)
          else State (S (length pre)) (patch pre ++ emit x rest)).
Proof.
  rewrite (body_spec _ _ _ x) by (by rewrite list_lookup_middle).
  by rewrite drop_past_middle.
Qed.

(** The scans of the parts are [patch] of the parts, and the cursor reaches
    the line between them. *)
Ltac scans_of_parts pre post :=
  exists (patch pre), (patch post);
  split; [apply fix_lines_patch|];
  split; [apply fix_lines_patch|];
  split; [by apply visits_stop|].

(** C3. A [    },] line followed by blank or comment-only lines [buf] and
    then by [  {]: the cursor reaches the [    },] line with the scan of the
    lines before it as result; that iteration appends the line, a new
    [  },] and [buf], and leaves the cursor on the [  {] line; the output is
    the scan of the lines before, then [    },], the inserted [  },], [buf]
    unchanged, [  {], then the scan of the lines after.  The example of the
    specification is the case of no lines before or after. *)
Theorem rule1_inserts_outer_close pre buf post :
  Forall (fun l => is_blank_or_comment l = true) buf ->
  let lines := pre ++ INNER_CLOSE :: buf ++ BLOCK_OPEN :: post in
  let i := length pre in
  let j := i + 1 + length buf in
  (exists out_pre out_post,
      fix_lines pre = Done out_pre /\
      fix_lines post = Done out_post /\
      visits lines (State i out_pre) /\
      body lines (State i out_pre) =
        Done (State j (out_pre ++ INNER_CLOSE :: OUTER_CLOSE :: buf)) /\
      fix_lines lines =
        Done (out_pre ++ INNER_CLOSE :: OUTER_CLOSE :: buf
                ++ BLOCK_OPEN :: out_post)) /\
  lines !! j = Some BLOCK_OPEN /\
  fix_lines (py <$> ["    },"; ""; "// note"; "  {"]%string) =
    Done (py <$> ["    },"; "  },"; ""; "// note"; "  {"]%string).
Proof.
  intros Hbuf lines i j.
  pose proof (inner_close_stops _ inner_close_is_inner_close) as Hstop.
  pose proof (run_app_stop buf BLOCK_OPEN post Hbuf block_open_not_skipped)
    as [Hrun Hafter].
  split; [|split; [|reflexivity]].
  - scans_of_parts pre post. split.
    + unfold lines, i, j. rewrite body_at_stop.
      rewrite inner_close_is_inner_close, (opens_run_open _ _ Hbuf). simpl.
      rewrite Hrun. do 2 f_equal. lia.
    + unfold lines. rewrite fix_lines_patch. f_equal.
      rewrite (patch_app_stop _ _ _ Hstop). f_equal.
      cbn [patch]. unfold emit at 1.
      rewrite inner_close_is_inner_close, (opens_run_open _ _ Hbuf).
      rewrite (patch_skipped _ _ Hbuf). reflexivity.
  - unfold lines, j, i.
    replace (length pre + 1 + length buf) with (length pre + S (length buf))
      by lia.
    rewrite lookup_app_r by lia.
    replace (length pre + S (length buf) - length pre) with (S (length buf))
      by lia.
    simpl. by rewrite list_lookup_middle.
Qed.

Lemma rule1_inserts_outer_close_witness :
  let lines := py <$> ["const a = ["; "    },"; ""; "// next"; "  {"; "  },"]%string in
  exists out_pre out_post,
    fix_lines [py "const a = ["] = Done out_pre /\
    fix_lines [py "  },"] = Done out_post /\
    visits lines (State 1 out_pre) /\
    body lines (State 1 out_pre) =
      Done (State 4 (out_pre ++ INNER_CLOSE :: OUTER_CLOSE :: [py ""; py "// next"])) /\
    fix_lines lines =
      Done (out_pre ++ INNER_CLOSE :: OUTER_CLOSE :: [py ""; py "// next"]
              ++ BLOCK_OPEN :: out_post).
Proof.
  refine (proj1 (rule1_inserts_outer_close
            [py "const a = ["] [py ""; py "// next"] [py "  },"] _)).
  repeat constructor.
Defined.

(** C6. A [    },] line followed by blank or comment-only lines [buf] and
    then by an existing [  },]: the lookahead ends on the [  },] line without
    a match, the iteration appends only the [    },] line and moves the
    cursor by one, and in the output the [    },] line is followed by [buf]
    and by what the scan makes of the existing [  },] and the lines after
    it: nothing is inserted. *)
Theorem rule1_keeps_existing_close pre buf post :
  Forall (fun l => is_blank_or_comment l = true) buf ->
  let lines := pre ++ INNER_CLOSE :: buf ++ OUTER_CLOSE :: post in
  let i := length pre in
  exists out_pre out_rest,
    fix_lines pre = Done out_pre /\
    fix_lines (OUTER_CLOSE :: post) = Done out_rest /\
    visits lines (State i out_pre) /\
    lookahead (length lines) lines (i + 1) [] =
      Done (i + 1 + length buf, buf, false) /\
    body lines (State i out_pre) =
      Done (State (i + 1) (out_pre ++ [INNER_CLOSE])) /\
    fix_lines lines = Done (out_pre ++ INNER_CLOSE :: buf ++ out_rest).
Proof.
  intros Hbuf lines i.
  pose proof (inner_close_stops _ inner_close_is_inner_close) as Hstop.
  pose proof (run_app_stop buf OUTER_CLOSE post Hbuf outer_close_not_skipped)
    as [Hrun Hafter].
  pose proof (opens_run_other buf OUTER_CLOSE post Hbuf outer_close_stops)
    as Hopen.
  assert (Hdrop : drop (i + 1) lines = buf ++ OUTER_CLOSE :: post).
  { unfold lines, i. replace (length pre + 1) with (S (length pre)) by lia.
    apply drop_past_middle. }
  scans_of_parts pre (OUTER_CLOSE :: post). split; [|split].
  - rewrite lookahead_spec by lia. by rewrite Hdrop, Hrun, Hopen.
  - unfold lines, i. rewrite body_at_stop.
    rewrite inner_close_is_inner_close, Hopen. simpl.
    unfold emit. rewrite inner_close_is_inner_close, Hopen.
    do 2 f_equal. lia.
  - unfold lines. rewrite fix_lines_patch. f_equal.
    rewrite (patch_app_stop _ _ _ Hstop). f_equal.
    cbn [patch]. unfold emit at 1.
    rewrite inner_close_is_inner_close, Hopen.
    rewrite (patch_skipped _ _ Hbuf). reflexivity.
Qed.

Lemma rule1_keeps_existing_close_witness :
  let lines := py <$> ["    },"; "// end of group"; "  },"; "  {"]%string in
  exists out_pre out_rest,
    fix_lines [] = Done out_pre /\
    fix_lines (py <$> ["  },"; "  {"]%string) = Done out_rest /\
    visits lines (State 0 out_pre) /\
    lookahead (length lines) lines 1 [] =
      Done (2, [py "// end of group"], false) /\
    body lines (State 0 out_pre) = Done (State 1 (out_pre ++ [INNER_CLOSE])) /\
    fix_lines lines =
      Done (out_pre ++ INNER_CLOSE :: [py "// end of group"] ++ out_rest).
Proof.
  refine (rule1_keeps_existing_close [] [py "// end of group"] [BLOCK_OPEN] _).
  repeat constructor.
Defined.

(** ** Rule 2: the close before a run that leads to an opening brace *)

Lemma emit_outer_dropped blank rest :
  strip blank = py "" -> opens (blank :: rest) = true ->
  emit OUTER_CLOSE (blank :: rest) = [].
Proof.
  intros Hblank Hopen. unfold emit. rewrite outer_close_not_inner.
  rewrite bool_decide_eq_true_2 by done.
  rewrite bool_decide_eq_false_2
    by (apply skipped_not_open; by apply blank_is_skipped).
  rewrite bool_decide_eq_true_2 by done. by rewrite Hopen.
Qed.

Lemma emit_outer_kept rest :
  opens rest = false -> emit OUTER_CLOSE rest = [OUTER_CLOSE].
Proof.
  intros Hopen. unfold emit. rewrite outer_close_not_inner.
  rewrite bool_decide_eq_true_2 by done.
  destruct rest as [|next_line rest]; [reflexivity|].
  rewrite Hopen, andb_false_r. by destruct (bool_decide (next_line = BLOCK_OPEN)).
Qed.

(** C2, as the code has it.  A [  },] line followed by a blank line, then
    blank or comment-only lines [buf], then [  {], is dropped: its iteration
    leaves the result as it is.  A [  },] line followed by blank or
    comment-only lines [run] after which no [  {] is reached (the file ends,
    or a line that [stops] comes) is retained. *)
Theorem rule2_drops_before_blank_run pre blank buf post run tail :
  strip blank = py "" ->
  Forall (fun l => is_blank_or_comment l = true) buf ->
  Forall (fun l => is_blank_or_comment l = true) run ->
  (tail = [] \/ exists x rest, tail = x :: rest /\ stops x) ->
  (let lines := pre ++ OUTER_CLOSE :: blank :: buf ++ BLOCK_OPEN :: post in
   exists out_pre out_post,
     fix_lines pre = Done out_pre /\
     fix_lines post = Done out_post /\
     visits lines (State (length pre) out_pre) /\
     body lines (State (length pre) out_pre) =
       Done (State (length pre + 1) out_pre) /\
     fix_lines lines = Done (out_pre ++ blank :: buf ++ BLOCK_OPEN :: out_post))
  /\
  (let lines := pre ++ OUTER_CLOSE :: run ++ tail in
   exists out_pre out_tail,
     fix_lines pre = Done out_pre /\
     fix_lines tail = Done out_tail /\
     visits lines (State (length pre) out_pre) /\
     body lines (State (length pre) out_pre) =
       Done (State (length pre + 1) (out_pre ++ [OUTER_CLOSE])) /\
     fix_lines lines = Done (out_pre ++ OUTER_CLOSE :: run ++ out_tail)).
Proof.
  intros Hblank Hbuf Hrun Htail.
  pose proof outer_close_stops as Hstop.
  split.
  - intros lines.
    assert (Hrun' : Forall (fun l => is_blank_or_comment l = true) (blank :: buf))
      by (constructor; [by apply blank_is_skipped | done]).
    assert (Hopen : opens (blank :: buf ++ BLOCK_OPEN :: post) = true)
      by apply (opens_run_open _ post Hrun').
    scans_of_parts pre post. split.
    + unfold lines. rewrite body_at_stop. rewrite outer_close_not_inner.
      simpl andb. cbv iota. rewrite (emit_outer_dropped _ _ Hblank Hopen).
      rewrite app_nil_r. do 2 f_equal. lia.
    + unfold lines. rewrite fix_lines_patch. f_equal.
      rewrite (patch_app_stop _ _ _ Hstop). f_equal.
      cbn [patch]. rewrite (emit_outer_dropped _ _ Hblank Hopen).
      change (patch ((blank :: buf) ++ BLOCK_OPEN :: post) =
              (blank :: buf) ++ BLOCK_OPEN :: patch post).
      by rewrite (patch_skipped _ _ Hrun').
  - intros lines.
    assert (Hopen : opens (run ++ tail) = false).
    { destruct Htail as [->|(x & rest & -> & Hx)].
      - rewrite app_nil_r. by apply opens_run_end.
      - by apply opens_run_other. }
    scans_of_parts pre tail. split.
    + unfold lines. rewrite body_at_stop. rewrite outer_close_not_inner.
      simpl andb. cbv iota. rewrite (emit_outer_kept _ Hopen).
      do 2 f_equal. lia.
    + unfold lines. rewrite fix_lines_patch. f_equal.
      rewrite (patch_app_stop _ _ _ Hstop). f_equal.
      cbn [patch]. rewrite (emit_outer_kept _ Hopen).
      by rewrite (patch_skipped _ _ Hrun).
Qed.

Lemma rule2_drops_before_blank_run_witness :
  (exists out_pre out_post,
     fix_lines [INNER_CLOSE] = Done out_pre /\
     fix_lines [INNER_CLOSE] = Done out_post /\
     fix_lines (py <$> ["    },"; "  },"; ""; "// next"; "  {"; "    },"]%string)
     = Done (out_pre ++ py "" :: [py "// next"] ++ BLOCK_OPEN :: out_post)) /\
  (exists out_pre out_tail,
     fix_lines [INNER_CLOSE] = Done out_pre /\
     fix_lines [py "];"] = Done out_tail /\
     fix_lines (py <$> ["    },"; "  },"; "// end"; "];"]%string)
     = Done (out_pre ++ OUTER_CLOSE :: [py "// end"] ++ out_tail)).
Proof.
  destruct (rule2_drops_before_blank_run
              [INNER_CLOSE] (py "") [py "// next"] [INNER_CLOSE]
              [py "// end"] [py "];"]) as [Hdrop Hkeep].
  - reflexivity.
  - repeat constructor.
  - repeat constructor.
  - right. exists (py "];"), []. split; [reflexivity|].
    split; [reflexivity|discriminate].
  - split.
    + destruct Hdrop as (a & b & Ha & Hb & _ & _ & H). by exists a, b.
    + destruct Hkeep as (a & b & Ha & Hb & _ & _ & H). by exists a, b.
Defined.

(** C2 as stated fails: a [  },] line followed by a comment-only line and
    then [  {] is not dropped; the test of line 57 only looks further when
    the next line is blank. *)
Lemma comment_first_run_keeps_outer_close :
  let lines := py <$> ["  },"; "// note"; "  {"]%string in
  lines !! 0 = Some OUTER_CLOSE /\
  (exists l, lines !! 1 = Some l /\ l <> BLOCK_OPEN /\
             is_blank_or_comment l = true) /\
  lines !! 2 = Some BLOCK_OPEN /\
  body lines (State 0 []) = Done (State 1 [OUTER_CLOSE]) /\
  fix_lines lines = Done lines.
Proof.
  split; [reflexivity|]. split.
  - eexists. split; [reflexivity|]. split; [discriminate|reflexivity].
  - split; [reflexivity|]. split; reflexivity.
Qed.

(** ** The lookahead buffer *)

(** C8. Whatever the fuel and the starting point, when the buffer holds only
    blank or comment-only lines on entry of the rule 1 lookahead it does so
    when the loop is left; such a buffer has no [  },], so [has_close] is
    false; and when the lookahead of an inner close finds [  {], the
    iteration always appends the line, [  },] and the buffer. *)
Theorem lookahead_buffer_invariant fuel lines j buffer j' buffer' found :
  Forall (fun l => is_blank_or_comment l = true) buffer ->
  lookahead fuel lines j buffer = Done (j', buffer', found) ->
  Forall (fun l => is_blank_or_comment l = true) buffer' /\
  (OUTER_CLOSE ∉ buffer') /\
  has_close buffer' = false /\
  (found = true -> lines !! j' = Some BLOCK_OPEN) /\
  (forall i r line,
      lines !! i = Some line -> is_inner_close line = true ->
      fuel = length lines -> j = i + 1 -> buffer = [] -> found = true ->
      body lines (State i r) =
        Done (State j' (r ++ [line] ++ [OUTER_CLOSE] ++ buffer'))).
Proof.
  intros Hbuffer Hrun.
  assert (Hinv : Forall (fun l => is_blank_or_comment l = true) buffer' /\
                 (found = true -> lines !! j' = Some BLOCK_OPEN) /\ j <= j').
  { revert j buffer Hbuffer Hrun.
    induction fuel as [|fuel IH]; intros j buffer Hbuffer Hrun; simpl in Hrun.
    - destruct (j <? length lines); [discriminate|].
      injection Hrun as <- <- <-. by repeat split.
    - destruct (j <? length lines); cycle 1.
      { injection Hrun as <- <- <-. by repeat split. }
      unfold getitem in Hrun.
      destruct (lines !! j) as [x|] eqn:Hx; simpl in Hrun; [|discriminate].
      change (bool_decide (strip x = py "") || startswith (strip x) (py "//"))
        with (is_blank_or_comment x) in Hrun.
      destruct (is_blank_or_comment x) eqn:E.
      + apply IH in Hrun as (? & ? & ?).
        * repeat split; [done|done|lia].
        * apply Forall_app. split; [done|]. by repeat constructor.
      + case_bool_decide as Hopen.
        * injection Hrun as <- <- <-. subst x. by repeat split.
        * assert (Hrun' : Done (j, buffer, false) = Done (j', buffer', found))
            by (by destruct (bool_decide (x = OUTER_CLOSE))).
          injection Hrun' as <- <- <-. by repeat split. }
  destruct Hinv as (Hinv & Hfound & Hle).
  split; [done|]. split; [|split; [by apply has_close_skipped|split; [done|]]].
  - intros Hin. rewrite Forall_forall in Hinv.
    apply Hinv in Hin. discriminate Hin.
  - intros i r line Hline Hinner -> -> -> ->.
    unfold body. simpl. rewrite (getitem_lookup _ _ _ Hline). simpl.
    rewrite Hinner, Hrun. simpl.
    rewrite (has_close_skipped _ Hinv). simpl.
    rewrite <- !app_assoc. simpl. do 2 f_equal. lia.
Qed.

Lemma lookahead_buffer_invariant_witness :
  let lines := py <$> ["    },"; ""; "// note"; "  {"]%string in
  Forall (fun l => is_blank_or_comment l = true) [py ""; py "// note"] /\
  has_close [py ""; py "// note"] = false /\
  body lines (State 0 []) =
    Done (State 3 ([] ++ [INNER_CLOSE] ++ [OUTER_CLOSE] ++ [py ""; py "// note"])).
Proof.
  intros lines.
  destruct (lookahead_buffer_invariant (length lines) lines 1 []
              3 [py ""; py "// note"] true) as (H1 & _ & H3 & _ & H5).
  - constructor.
  - reflexivity.
  - split; [exact H1|]. split; [exact H3|].
    apply (H5 0 [] INNER_CLOSE); reflexivity.
Defined.

(** ** Termination *)

Lemma lookahead_pass fuel lines j buffer x :
  lines !! j = Some x -> is_blank_or_comment x = true ->
  lookahead (S fuel) lines j buffer = lookahead fuel lines (j + 1) (buffer ++ [x]).
Proof.
  intros Hx E. simpl.
  rewrite (proj2 (Nat.ltb_lt _ _)) by (by apply lookup_lt_Some in Hx).
  rewrite (getitem_lookup _ _ _ Hx). simpl.
  change (bool_decide (strip x = py "") || startswith (strip x) (py "//"))
    with (is_blank_or_comment x).
  by rewrite E.
Qed.

Lemma skip_run_pass fuel lines j x :
  lines !! j = Some x -> is_blank_or_comment x = true ->
  skip_run (S fuel) lines j = skip_run fuel lines (j + 1).
Proof.
  intros Hx E. simpl.
  rewrite (proj2 (Nat.ltb_lt _ _)) by (by apply lookup_lt_Some in Hx).
  simpl. rewrite !(getitem_lookup _ _ _ Hx). simpl.
  unfold is_blank_or_comment in E. simpl in E.
  destruct (bool_decide (strip x = py "")); simpl in *; [done|].
  by rewrite E.
Qed.

Lemma lookahead_no_raise fuel lines : forall j buffer e,
  lookahead fuel lines j buffer <> Raise e.
Proof.
  induction fuel as [|fuel IH]; intros j buffer e; simpl;
    destruct (Nat.ltb_spec j (length lines)) as [Hlt|Hge]; try discriminate.
  destruct (lookup_lt_is_Some_2 lines j Hlt) as [x Hx].
  rewrite (getitem_lookup _ _ _ Hx). simpl.
  destruct (_ || _); [apply IH|].
  by repeat case_bool_decide.
Qed.

Lemma skip_run_no_raise fuel lines : forall j e,
  skip_run fuel lines j <> Raise e.
Proof.
  induction fuel as [|fuel IH]; intros j e; simpl;
    destruct (Nat.ltb_spec j (length lines)) as [Hlt|Hge]; simpl;
    try discriminate;
    destruct (lookup_lt_is_Some_2 lines j Hlt) as [x Hx];
    rewrite !(getitem_lookup _ _ _ Hx); simpl;
    destruct (bool_decide (strip x = py "")); simpl;
    try destruct (startswith (strip x) (py "//")); simpl;
    try discriminate; apply IH.
Qed.

Lemma scan_loop_no_raise fuel lines : forall st e,
  scan_loop fuel lines st <> Raise e.
Proof.
  induction fuel as [|fuel IH]; intros [i r] e; simpl;
    destruct (Nat.ltb_spec i (length lines)) as [Hlt|Hge]; try discriminate.
  destruct (body_step lines i r Hlt) as (st' & -> & _). simpl. apply IH.
Qed.

(** C9. The scan returns a result on every input, with the fuel
    [len(lines)] and with any larger fuel; every iteration of the main loop
    returns (no index is out of range) and moves the cursor strictly forward
    and not past the end; after an insertion the cursor is on the [  {] line;
    each pass of a lookahead loop moves [j] by one, and with fuel
    [len(lines) - j] each lookahead returns with [j] not past the end; no
    loop raises, whatever the fuel: no index is out of range. *)
Theorem scan_terminates lines :
  (exists out, fix_lines lines = Done out) /\
  (forall fuel, length lines <= fuel ->
     scan_loop fuel lines (State 0 []) = fix_lines lines) /\
  (forall i r, i < length lines ->
     exists st', body lines (State i r) = Done st' /\
                 i + 1 <= st_i st' <= length lines /\
                 (st_i st' = i + 1 \/ lines !! st_i st' = Some BLOCK_OPEN)) /\
  (forall fuel j buffer x,
     lines !! j = Some x -> is_blank_or_comment x = true ->
     lookahead (S fuel) lines j buffer =
       lookahead fuel lines (j + 1) (buffer ++ [x])) /\
  (forall j buffer, j <= length lines ->
     exists j' buffer' found,
       lookahead (length lines - j) lines j buffer = Done (j', buffer', found) /\
       j <= j' <= length lines /\ (found = true -> j' < length lines)) /\
  (forall fuel j x,
     lines !! j = Some x -> is_blank_or_comment x = true ->
     skip_run (S fuel) lines j = skip_run fuel lines (j + 1)) /\
  (forall j, j <= length lines ->
     exists j', skip_run (length lines - j) lines j = Done j' /\
                j <= j' <= length lines) /\
  (forall fuel e,
     (forall st, scan_loop fuel lines st <> Raise e) /\
     (forall j buffer, lookahead fuel lines j buffer <> Raise e) /\
     (forall j, skip_run fuel lines j <> Raise e)).
Proof.
  split; [exists (patch lines); apply fix_lines_patch|].
  split; [intros; by apply scan_loop_enough|].
  split.
  { intros i r Hlt.
    destruct (lookup_lt_is_Some_2 lines i Hlt) as [line Hline].
    rewrite (body_spec _ _ _ _ Hline).
    set (rest := drop (S i) lines).
    assert (Hrest : length rest = length lines - S i)
      by (unfold rest; by rewrite length_drop).
    destruct (is_inner_close line && opens rest) eqn:E.
    - apply andb_prop in E as [_ Eopen].
      pose proof (opens_run_lt _ Eopen) as Hrun.
      eexists. split; [reflexivity|]. simpl. split; [lia|]. right.
      rewrite opens_lookup in Eopen. apply bool_decide_eq_true in Eopen.
      unfold rest in Eopen. rewrite lookup_drop in Eopen.
      by rewrite Nat.add_succ_l in Eopen.
    - eexists. split; [reflexivity|]. simpl. split; [lia|]. left. lia. }
  split; [intros; by apply lookahead_pass|].
  split.
  { intros j buffer Hj. rewrite lookahead_spec by lia.
    set (rest := drop j lines).
    assert (Hrest : length rest = length lines - j)
      by (unfold rest; by rewrite length_drop).
    pose proof (leading_run_length_le rest).
    do 3 eexists. split; [reflexivity|]. split; [lia|].
    intros Hopen%opens_run_lt. lia. }
  split; [intros; by eapply skip_run_pass|].
  split.
  { intros j Hj. rewrite skip_run_spec by lia.
    set (rest := drop j lines).
    assert (Hrest : length rest = length lines - j)
      by (unfold rest; by rewrite length_drop).
    pose proof (leading_run_length_le rest).
    eexists. split; [reflexivity|]. lia. }
  intros fuel e. split; [intros; apply scan_loop_no_raise|].
  split; intros; [apply lookahead_no_raise | apply skip_run_no_raise].
Qed.

Lemma scan_terminates_witness :
  let lines := py <$> ["    },"; ""; "  {"; "  },"; ""; "  {"]%string in
  (exists out, fix_lines lines = Done out) /\
  (exists st', body lines (State 0 []) = Done st' /\
               0 + 1 <= st_i st' <= length lines /\
               (st_i st' = 0 + 1 \/ lines !! st_i st' = Some BLOCK_OPEN)) /\
  (exists j', skip_run (length lines - 4) lines 4 = Done j' /\
              4 <= j' <= length lines).
Proof.
  intros lines.
  destruct (scan_terminates lines) as (H1 & _ & H3 & _ & _ & _ & H7 & _).
  split; [exact H1|]. split.
  - apply (H3 0 []). simpl. lia.
  - apply (H7 4). simpl. lia.
Defined.

(** ** Shape of the lines that trigger rule 1 *)

Lemma lstrip_spaces ws s :
  forallb isspace ws = true -> lstrip (ws ++ s) = lstrip s.
Proof.
  induction ws as [|c ws IH]; simpl; [done|].
  intros [Hc Hws]%andb_prop. rewrite Hc. by apply IH.
Qed.

Lemma lstrip_decompose s :
  exists ws, forallb isspace ws = true /\ s = ws ++ lstrip s.
Proof.
  induction s as [|c s (ws & Hws & Hs)]; simpl.
  - by exists [].
  - destruct (isspace c) eqn:Hc.
    + exists (c :: ws). simpl. rewrite Hc, Hws. split; [done|]. by f_equal.
    + by exists [].
Qed.

Lemma forallb_rev (f : N -> bool) l : forallb f (rev l) = forallb f l.
Proof.
  induction l as [|c l IH]; simpl; [done|].
  rewrite forallb_app, IH. simpl. rewrite andb_true_r. apply andb_comm.
Qed.

Lemma rstrip_decompose s :
  exists ws, forallb isspace ws = true /\ s = rstrip s ++ ws.
Proof.
  destruct (lstrip_decompose (rev s)) as (ws & Hws & Hs).
  exists (rev ws). split; [by rewrite forallb_rev|].
  unfold rstrip. rewrite <- rev_app_distr, <- Hs. by rewrite rev_involutive.
Qed.

Lemma rstrip_spaces s ws :
  forallb isspace ws = true -> rstrip (s ++ ws) = rstrip s.
Proof.
  intros Hws. unfold rstrip. rewrite rev_app_distr.
  rewrite lstrip_spaces; [done|]. by rewrite forallb_rev.
Qed.

(** The lines that strip to [},]. *)
Lemma strip_close_shape line :
  strip line = py "}," <->
  exists ws1 ws2, forallb isspace ws1 = true /\ forallb isspace ws2 = true /\
                  line = ws1 ++ py "}," ++ ws2.
Proof.
  split.
  - intros Hstrip. unfold strip in Hstrip.
    destruct (lstrip_decompose line) as (ws1 & Hws1 & Hline).
    destruct (rstrip_decompose (lstrip line)) as (ws2 & Hws2 & Hrest).
    exists ws1, ws2. split; [done|]. split; [done|].
    rewrite Hline at 1. f_equal. by rewrite <- Hstrip.
  - intros (ws1 & ws2 & Hws1 & Hws2 & ->).
    unfold strip. rewrite (lstrip_spaces _ _ Hws1).
    change (lstrip (py "}," ++ ws2)) with (py "}," ++ ws2).
    by rewrite (rstrip_spaces _ _ Hws2).
Qed.

Lemma startswith_app prefix s : startswith (prefix ++ s) prefix = true.
Proof.
  induction prefix as [|p prefix IH]; simpl; [done|].
  by rewrite N.eqb_refl, IH.
Qed.

Lemma startswith_inv s prefix :
  startswith s prefix = true -> exists t, s = prefix ++ t.
Proof.
  revert s. induction prefix as [|p prefix IH]; intros s H; simpl in *.
  - by exists s.
  - destruct s as [|c s]; [discriminate|].
    apply andb_prop in H as [Hc Hs]. apply N.eqb_eq in Hc as ->.
    destruct (IH _ Hs) as [t ->]. by exists t.
Qed.

(** [}] is not white space, so white space before [},] that starts with
    four spaces has them in front. *)
Lemma indent_in_spaces ws1 rest t :
  ws1 ++ py "}," ++ rest = py "    " ++ t ->
  exists ws, ws1 = py "    " ++ ws.
Proof.
  intros H.
  destruct ws1 as [|a [|b [|c [|d ws]]]]; try discriminate H.
  injection H as -> -> -> -> _. by exists ws.
Qed.

Lemma is_inner_close_shape line :
  is_inner_close line = true <->
  exists ws1 ws2, forallb isspace ws1 = true /\ forallb isspace ws2 = true /\
                  line = py "    " ++ ws1 ++ py "}," ++ ws2.
Proof.
  unfold is_inner_close. rewrite andb_true_iff, bool_decide_eq_true.
  rewrite strip_close_shape. split.
  - intros [(ws1 & ws2 & Hws1 & Hws2 & ->) Hstart].
    apply startswith_inv in Hstart as [t Ht].
    destruct (indent_in_spaces _ _ _ Ht) as [ws ->].
    exists ws, ws2. split; [|split; [done|]].
    + by rewrite forallb_app in Hws1; apply andb_prop in Hws1 as [_ ?].
    + by rewrite <- app_assoc.
  - intros (ws1 & ws2 & Hws1 & Hws2 & ->). split.
    + exists (py "    " ++ ws1), ws2.
      split; [|split; [done|by rewrite <- app_assoc]].
      rewrite forallb_app, Hws1. reflexivity.
    + apply startswith_app.
Qed.

(** C4, as the code has it.  Rule 1 is entered exactly on the lines that
    consist of four spaces, further white space, [},] and trailing white
    space; [    },] is one of them.  On such a line the iteration runs the
    lookahead and either inserts and jumps or appends the line; on any other
    line it appends at most the line and moves the cursor by one. *)
Theorem rule1_trigger_shape lines i r line :
  lines !! i = Some line ->
  (is_inner_close line = true <->
   exists ws1 ws2, forallb isspace ws1 = true /\ forallb isspace ws2 = true /\
                   line = py "    " ++ ws1 ++ py "}," ++ ws2) /\
  is_inner_close INNER_CLOSE = true /\
  (is_inner_close line = true ->
   exists j buffer found,
     lookahead (length lines) lines (i + 1) [] = Done (j, buffer, found) /\
     body lines (State i r) =
       Done (if found then State j (r ++ line :: OUTER_CLOSE :: buffer)
             else State (i + 1) (r ++ [line]))) /\
  (is_inner_close line = false ->
   exists out,
     body lines (State i r) = Done (State (i + 1) (r ++ out)) /\
     (out = [line] \/ out = [])).
Proof.
  intros Hline. split; [apply is_inner_close_shape|].
  split; [reflexivity|]. split.
  - intros Hinner. rewrite lookahead_spec by lia. do 3 eexists.
    split; [reflexivity|]. rewrite (body_spec _ _ _ _ Hline), Hinner.
    replace (i + 1) with (S i) by lia. simpl.
    destruct (opens (drop (S i) lines)) eqn:Hopen; [reflexivity|].
    unfold emit. by rewrite Hinner, Hopen.
  - intros Hinner. rewrite (body_spec _ _ _ _ Hline), Hinner. simpl.
    replace (i + 1) with (S i) by lia. eexists. split; [reflexivity|].
    unfold emit. rewrite Hinner.
    destruct (bool_decide (line = OUTER_CLOSE)); [|by left].
    destruct (drop (S i) lines) as [|next_line rest]; [by left|].
    destruct (bool_decide (next_line = BLOCK_OPEN)); [by left|].
    destruct (_ && _); [by right | by left].
Qed.

Lemma rule1_trigger_shape_witness :
  let lines := py <$> ["    " +:+ String (ascii_of_nat 9) "},  "; "  {"]%string in
  exists line,
    lines !! 0 = Some line /\ line <> INNER_CLOSE /\
    is_inner_close line = true /\
    exists j buffer found,
      lookahead (length lines) lines (0 + 1) [] = Done (j, buffer, found) /\
      body lines (State 0 []) =
        Done (if found then State j ([] ++ line :: OUTER_CLOSE :: buffer)
              else State (0 + 1) ([] ++ [line])).
Proof.
  intros lines.
  set (line := py ("    " +:+ String (ascii_of_nat 9) "},  ")).
  exists line. split; [reflexivity|]. split; [discriminate|].
  destruct (rule1_trigger_shape lines 0 [] line eq_refl) as (Hshape & _ & Hin & _).
  assert (Hinner : is_inner_close line = true).
  { apply Hshape. exists [9%N], (py "  "). repeat split. }
  split; [exact Hinner | exact (Hin Hinner)].
Defined.

(** C4 as stated fails: lines with deeper indentation or with trailing
    white space are not the string [    },] and trigger rule 1. *)
Lemma deeper_indent_triggers_rule1 :
  py "      }," <> INNER_CLOSE /\
  is_inner_close (py "      },") = true /\
  fix_lines [py "      },"; BLOCK_OPEN] =
    Done [py "      },"; OUTER_CLOSE; BLOCK_OPEN] /\
  py "    },  " <> INNER_CLOSE /\
  is_inner_close (py "    },  ") = true /\
  fix_lines [py "    },  "; BLOCK_OPEN] =
    Done [py "    },  "; OUTER_CLOSE; BLOCK_OPEN].
Proof. repeat split; discriminate. Qed.

(** ** Lines that trigger no rule *)

Lemma split_cons sep s : exists piece pieces, split sep s = piece :: pieces.
Proof.
  destruct s as [|c s]; simpl; [by eexists _, _|].
  destruct (c =? sep)%N; [by eexists _, _|].
  destruct (split sep s); by eexists _, _.
Qed.

Lemma join_split sep s : join sep (split sep s) = s.
Proof.
  induction s as [|c s IH]; [reflexivity|]. simpl.
  destruct (split_cons sep s) as (piece & pieces & Hs).
  rewrite Hs in IH |- *.
  destruct (N.eqb_spec c sep) as [->|Hne].
  - simpl. simpl in IH. by rewrite IH.
  - simpl in IH |- *. destruct pieces; simpl; by rewrite <- IH.
Qed.

Lemma emit_untriggered line rest :
  is_inner_close line = false -> line <> OUTER_CLOSE -> emit line rest = [line].
Proof.
  intros Hinner Houter. unfold emit. rewrite Hinner.
  by rewrite bool_decide_eq_false_2.
Qed.

Lemma patch_untriggered lines :
  (forall line, line ∈ lines ->
     is_inner_close line = false /\ line <> OUTER_CLOSE) ->
  patch lines = lines.
Proof.
  induction lines as [|line rest IH]; intros H; [reflexivity|]. simpl.
  destruct (H line) as [Hinner Houter]; [by left|].
  rewrite (emit_untriggered _ _ Hinner Houter). simpl. f_equal.
  apply IH. intros l Hl. apply H. by right.
Qed.

(** C7. When no line of the content strips to [},] while starting with four
    spaces, and no line is [  },], the scan returns the lines as they are,
    and the string written is, character for character, the string read:
    every line passes through and [join] undoes [split]. *)
Theorem untriggered_content_unchanged content :
  (forall line, line ∈ split NL content ->
     is_inner_close line = false /\ line <> OUTER_CLOSE) ->
  fix_lines (split NL content) = Done (split NL content) /\
  fix_content content = Done content.
Proof.
  intros H.
  assert (Hfix : fix_lines (split NL content) = Done (split NL content))
    by (by rewrite fix_lines_patch, (patch_untriggered _ H)).
  split; [done|].
  unfold fix_content. rewrite Hfix. simpl. by rewrite join_split.
Qed.

Lemma untriggered_content_unchanged_witness :
  let content :=
    py "export const members = [" ++ [NL] ++ py "   }," ++ [NL] ++ py "];"
       ++ [NL] in
  fix_content content = Done content.
Proof.
  intros content.
  refine (proj2 (untriggered_content_unchanged content _)).
  intros line Hin. vm_compute in Hin.
  repeat (apply elem_of_cons in Hin as [->|Hin];
          [split; [reflexivity|discriminate]|]).
  by apply elem_of_nil in Hin.
Defined.

(** ** Which lines the scan moves *)




(** ** A second run *)

(** C1 fails on the code.  On the example of the specification the second
    run takes the inserted [  },] out again (rule 2: it is followed by a
    blank line and a run that leads to [  {]), a third run puts it back:
    the output of a run is not a fixed point. *)
Lemma second_run_drops_inserted_close :
  let x := py <$> ["    },"; ""; "// note"; "  {"]%string in
  let y := py <$> ["    },"; "  },"; ""; "// note"; "  {"]%string in
  fix_lines x = Done y /\ fix_lines y = Done x /\ x <> y /\
  bind (fix_lines x) fix_lines <> fix_lines x.
Proof. repeat split; discriminate. Qed.


(** * Further properties of the scan *)

(** ** What the two lookahead loops return *)

Lemma after_run_head ls x t :
  after_run ls = x :: t -> is_blank_or_comment x = false.
Proof.
  induction ls as [|l ls IH]; simpl; [discriminate|].
  destruct (is_blank_or_comment l) eqn:E; [done|]. by intros [= <- _].
Qed.

Lemma leading_run_take (ls : list pystr) :
  leading_run ls = take (length (leading_run ls)) ls.
Proof.
  rewrite <- (leading_after_run ls) at 3. by rewrite take_app_length.
Qed.

Lemma lookup_past_run (ls : list pystr) l :
  ls !! length (leading_run ls) = Some l -> is_blank_or_comment l = false.
Proof.
  intros H.
  pose proof (lookup_drop ls (length (leading_run ls)) 0) as Hd.
  rewrite Nat.add_0_r, H, <- lookup_after_run in Hd.
  destruct (after_run ls) as [|x t] eqn:E; [discriminate|].
  injection Hd as ->. by apply (after_run_head _ _ _ E).
Qed.

(** X1. The rule 1 lookahead started at [j] with an empty buffer returns the
    longest run of blank or comment-only lines that starts at [j] as buffer,
    the index of the first line after that run (or [len(lines)]) as [j], and
    [found_array_start] exactly when that line is [  {]. *)
Theorem lookahead_returns_maximal_run lines j :
  j <= length lines ->
  exists j' buffer found,
    lookahead (length lines) lines j [] = Done (j', buffer, found) /\
    j <= j' <= length lines /\
    buffer = take (j' - j) (drop j lines) /\
    Forall (fun l => is_blank_or_comment l = true) buffer /\
    (forall l, lines !! j' = Some l -> is_blank_or_comment l = false) /\
    (found = true <-> lines !! j' = Some BLOCK_OPEN).
Proof.
  intros Hj. rewrite lookahead_spec by lia.
  set (rest := drop j lines).
  assert (Hrest : length rest = length lines - j)
    by (unfold rest; by rewrite length_drop).
  pose proof (leading_run_length_le rest) as Hle.
  do 3 eexists. split; [reflexivity|]. split; [lia|].
  replace (j + length (leading_run rest) - j) with (length (leading_run rest))
    by lia.
  split; [apply leading_run_take|]. split; [apply leading_run_skipped|].
  assert (Hlook : lines !! (j + length (leading_run rest))
                  = rest !! length (leading_run rest))
    by (unfold rest; by rewrite lookup_drop).
  rewrite Hlook. split; [apply lookup_past_run|].
  by rewrite opens_lookup, bool_decide_eq_true.
Qed.

Lemma lookahead_returns_maximal_run_witness :
  let lines := py <$> ["    },"; ""; "  // next group"; "  {"; "    name: 1"]%string in
  exists j' buffer found,
    lookahead (length lines) lines 1 [] = Done (j', buffer, found) /\
    1 <= j' <= length lines /\
    buffer = take (j' - 1) (drop 1 lines) /\
    Forall (fun l => is_blank_or_comment l = true) buffer /\
    (forall l, lines !! j' = Some l -> is_blank_or_comment l = false) /\
    (found = true <-> lines !! j' = Some BLOCK_OPEN).
Proof.
  intros lines. apply (lookahead_returns_maximal_run lines 1). simpl. lia.
Defined.

(** X2. The rule 2 lookahead stops where the rule 1 lookahead does: on the
    first line from [j] on that is neither blank nor a comment, or at
    [len(lines)]. *)
Theorem skip_run_agrees_with_lookahead lines j :
  exists j' buffer found,
    lookahead (length lines) lines j [] = Done (j', buffer, found) /\
    skip_run (length lines) lines j = Done j' /\
    (forall k, j <= k < j' ->
       exists l, lines !! k = Some l /\ is_blank_or_comment l = true) /\
    (forall l, lines !! j' = Some l -> is_blank_or_comment l = false).
Proof.
  rewrite lookahead_spec, skip_run_spec by lia.
  set (rest := drop j lines).
  do 3 eexists. split; [reflexivity|]. split; [reflexivity|]. split.
  - intros k Hk.
    destruct (leading_run_lookup rest (k - j)) as (l & Hl & Hs); [lia|].
    exists l. split; [|done]. unfold rest in Hl. rewrite lookup_drop in Hl.
    by replace (j + (k - j)) with k in Hl by lia.
  - intros l. replace (lines !! (j + length (leading_run rest)))
      with (rest !! length (leading_run rest))
      by (unfold rest; by rewrite lookup_drop).
    apply lookup_past_run.
Qed.

(** ** Where the cursor goes *)

(** X3. Every line that is neither blank nor a comment is the current line of
    an iteration of the main loop, with a result that is a prefix of the
    final one: the jump of rule 1 only passes blank and comment-only lines.
    The loop is left with the cursor exactly at [len(lines)]. *)
Theorem cursor_visits_structural_lines lines :
  (forall k l, lines !! k = Some l -> is_blank_or_comment l = false ->
     exists r tail, visits lines (State k r) /\
                    fix_lines lines = Done (r ++ tail)) /\
  (exists out, visits lines (State (length lines) out) /\
               fix_lines lines = Done out) /\
  (forall st, visits lines st -> st_i st <= length lines).
Proof.
  split; [|split].
  - intros k l Hl Hstop.
    destruct (visits_line lines k) as [r Hv].
    + apply lookup_lt_Some in Hl. lia.
    + intros l'. rewrite Hl. by intros [= <-].
    + exists r, (patch (drop k lines)). split; [done|].
      rewrite fix_lines_patch. f_equal.
      by destruct (visits_invariant _ _ Hv) as [_ <-].
  - destruct (visits_line lines (length lines)) as [r Hv]; [lia| |].
    + intros l Hl. apply lookup_lt_Some in Hl. lia.
    + exists r. split; [done|]. rewrite fix_lines_patch. f_equal.
      destruct (visits_invariant _ _ Hv) as [_ <-]. simpl.
      by rewrite drop_all, app_nil_r.
  - intros st Hv. by destruct (visits_invariant _ _ Hv).
Qed.

Lemma cursor_visits_structural_lines_witness :
  let lines := py <$> ["    },"; ""; "  {"; "    },"]%string in
  exists r tail, visits lines (State 2 r) /\ fix_lines lines = Done (r ++ tail).
Proof.
  intros lines.
  apply (proj1 (cursor_visits_structural_lines lines) 2 BLOCK_OPEN);
    reflexivity.
Defined.

(** ** Composition *)

(** X4. At a line that is neither blank, nor a comment, nor [  {], the scan of
    a file is the scan of the lines before it followed by the scan of the
    lines from it on. *)
Theorem scan_splits_at_stop pre x rest :
  is_blank_or_comment x = false -> x <> BLOCK_OPEN ->
  exists a b,
    fix_lines pre = Done a /\ fix_lines (x :: rest) = Done b /\
    fix_lines (pre ++ x :: rest) = Done (a ++ b).
Proof.
  intros Hx Hne. exists (patch pre), (patch (x :: rest)).
  rewrite !fix_lines_patch. split; [done|]. split; [done|].
  by rewrite patch_app_stop.
Qed.

Lemma scan_splits_at_stop_witness :
  exists a b,
    fix_lines [INNER_CLOSE; py ""] = Done a /\
    fix_lines [py "];"; BLOCK_OPEN] = Done b /\
    fix_lines ([INNER_CLOSE; py ""] ++ [py "];"; BLOCK_OPEN]) = Done (a ++ b).
Proof.
  apply (scan_splits_at_stop [INNER_CLOSE; py ""] (py "];") [BLOCK_OPEN]);
    [reflexivity|discriminate].
Defined.

(** ** The two rules on every line they apply to *)

Lemma patch_trigger line rest :
  is_inner_close line = true ->
  patch (line :: rest) =
    line :: (if opens rest then [OUTER_CLOSE] else []) ++ patch rest.
Proof.
  intros H. cbn [patch]. unfold emit. rewrite H. by destruct (opens rest).
Qed.

Lemma opens_no_open buf tail :
  Forall (fun l => is_blank_or_comment l = true) buf ->
  tail = [] \/ (exists x rest, tail = x :: rest /\ stops x) ->
  opens (buf ++ tail) = false.
Proof.
  intros Hbuf [->|(x & rest & -> & Hx)].
  - rewrite app_nil_r. by apply opens_run_end.
  - by apply opens_run_other.
Qed.

Lemma blank_run_opens blank buf t :
  strip blank = py "" ->
  Forall (fun l => is_blank_or_comment l = true) buf ->
  opens (blank :: buf ++ BLOCK_OPEN :: t) = true.
Proof.
  intros Hblank Hbuf. apply (opens_run_open (blank :: buf)).
  constructor; [by apply blank_is_skipped | done].
Qed.

Lemma blank_run_patch blank buf t :
  strip blank = py "" ->
  Forall (fun l => is_blank_or_comment l = true) buf ->
  patch (blank :: buf ++ t) = blank :: buf ++ patch t.
Proof.
  intros Hblank Hbuf. apply (patch_skipped (blank :: buf)).
  constructor; [by apply blank_is_skipped | done].
Qed.

Lemma patch_dropped_close blank buf t :
  strip blank = py "" ->
  Forall (fun l => is_blank_or_comment l = true) buf ->
  patch (OUTER_CLOSE :: blank :: buf ++ BLOCK_OPEN :: t) =
    blank :: buf ++ BLOCK_OPEN :: patch t.
Proof.
  intros Hblank Hbuf.
  change (patch (OUTER_CLOSE :: blank :: buf ++ BLOCK_OPEN :: t))
    with (emit OUTER_CLOSE (blank :: buf ++ BLOCK_OPEN :: t)
          ++ patch (blank :: buf ++ BLOCK_OPEN :: t)).
  rewrite emit_outer_dropped by (by try apply blank_run_opens).
  rewrite (blank_run_patch _ _ _ Hblank Hbuf).
  change (patch (BLOCK_OPEN :: t)) with (emit BLOCK_OPEN t ++ patch t).
  rewrite (emit_untriggered BLOCK_OPEN) by (done || discriminate).
  reflexivity.
Qed.

(** X5. Rule 1 on any line that triggers it, whatever its indentation: followed
    by blank or comment-only lines and then [  {], it gets the two-space
    [  },] inserted after it. *)
Theorem rule1_inserts_after_any_trigger pre line buf post :
  is_inner_close line = true ->
  Forall (fun l => is_blank_or_comment l = true) buf ->
  exists out_pre out_post,
    fix_lines pre = Done out_pre /\ fix_lines post = Done out_post /\
    fix_lines (pre ++ line :: buf ++ BLOCK_OPEN :: post) =
      Done (out_pre ++ line :: OUTER_CLOSE :: buf ++ BLOCK_OPEN :: out_post).
Proof.
  intros Hline Hbuf. exists (patch pre), (patch post).
  rewrite !fix_lines_patch. split; [done|]. split; [done|]. f_equal.
  rewrite (patch_app_stop _ _ _ (inner_close_stops _ Hline)). f_equal.
  rewrite (patch_trigger _ _ Hline), (opens_run_open _ _ Hbuf).
  by rewrite (patch_skipped _ _ Hbuf).
Qed.

Lemma rule1_inserts_after_any_trigger_witness :
  exists out_pre out_post,
    fix_lines [py "  {"] = Done out_pre /\ fix_lines [] = Done out_post /\
    fix_lines ([py "  {"] ++ py "        }," :: [py "// b"] ++ BLOCK_OPEN :: []) =
      Done (out_pre ++ py "        }," :: OUTER_CLOSE :: [py "// b"]
              ++ BLOCK_OPEN :: out_post).
Proof.
  apply (rule1_inserts_after_any_trigger [py "  {"] (py "        },")
           [py "// b"] []); [reflexivity|repeat constructor].
Defined.

(** X6. Rule 1 inserts nothing when the blank and comment-only lines after the
    triggering line end at the end of the file or at a line other than
    [  {]. *)
Theorem rule1_no_insert_without_open pre line buf tail :
  is_inner_close line = true ->
  Forall (fun l => is_blank_or_comment l = true) buf ->
  tail = [] \/ (exists x rest, tail = x :: rest /\
                  is_blank_or_comment x = false /\ x <> BLOCK_OPEN) ->
  exists out_pre out_tail,
    fix_lines pre = Done out_pre /\ fix_lines tail = Done out_tail /\
    fix_lines (pre ++ line :: buf ++ tail) =
      Done (out_pre ++ line :: buf ++ out_tail).
Proof.
  intros Hline Hbuf Htail. exists (patch pre), (patch tail).
  rewrite !fix_lines_patch. split; [done|]. split; [done|]. f_equal.
  rewrite (patch_app_stop _ _ _ (inner_close_stops _ Hline)). f_equal.
  rewrite (patch_trigger _ _ Hline), (opens_no_open _ _ Hbuf Htail).
  by rewrite (patch_skipped _ _ Hbuf).
Qed.

Lemma rule1_no_insert_without_open_witness :
  exists out_pre out_tail,
    fix_lines [] = Done out_pre /\
    fix_lines [INNER_CLOSE; BLOCK_OPEN] = Done out_tail /\
    fix_lines ([] ++ INNER_CLOSE :: [py ""] ++ [INNER_CLOSE; BLOCK_OPEN]) =
      Done (out_pre ++ INNER_CLOSE :: [py ""] ++ out_tail).
Proof.
  apply (rule1_no_insert_without_open [] INNER_CLOSE [py ""]
           [INNER_CLOSE; BLOCK_OPEN]);
    [reflexivity | repeat constructor |].
  right. exists INNER_CLOSE, [BLOCK_OPEN].
  split; [reflexivity|]. split; [reflexivity|discriminate].
Defined.

(** X7. A [  },] line immediately followed by [  {] is kept, and so is the
    [  {] line. *)
Theorem rule2_keeps_close_before_open pre post :
  exists out_pre out_post,
    fix_lines pre = Done out_pre /\ fix_lines post = Done out_post /\
    fix_lines (pre ++ OUTER_CLOSE :: BLOCK_OPEN :: post) =
      Done (out_pre ++ OUTER_CLOSE :: BLOCK_OPEN :: out_post).
Proof.
  exists (patch pre), (patch post).
  rewrite !fix_lines_patch. split; [done|]. split; [done|]. f_equal.
  by rewrite (patch_app_stop _ _ _ outer_close_stops).
Qed.

(** X8. Rule 2 drops a [  },] that rule 1 does not put back: when the dropped
    line comes after a triggering line (and blank or comment-only lines), the
    lookahead of that line has ended on the [  },] without a match, so the
    output has the triggering line followed by blank and comment lines and
    [  {] with no [  },] between them. *)
Theorem dropped_close_is_not_reinserted pre line buf blank buf' post :
  is_inner_close line = true ->
  Forall (fun l => is_blank_or_comment l = true) buf ->
  strip blank = py "" ->
  Forall (fun l => is_blank_or_comment l = true) buf' ->
  exists out_pre out_post,
    fix_lines pre = Done out_pre /\ fix_lines post = Done out_post /\
    fix_lines (pre ++ line :: buf ++ OUTER_CLOSE :: blank :: buf'
                 ++ BLOCK_OPEN :: post) =
      Done (out_pre ++ line :: buf ++ blank :: buf' ++ BLOCK_OPEN :: out_post).
Proof.
  intros Hline Hbuf Hblank Hbuf'. exists (patch pre), (patch post).
  rewrite !fix_lines_patch. split; [done|]. split; [done|]. f_equal.
  rewrite (patch_app_stop _ _ _ (inner_close_stops _ Hline)). f_equal.
  rewrite (patch_trigger _ _ Hline).
  rewrite (opens_run_other _ _ _ Hbuf outer_close_stops). simpl.
  rewrite (patch_skipped _ _ Hbuf). do 2 f_equal.
  by apply patch_dropped_close.
Qed.

Lemma dropped_close_is_not_reinserted_witness :
  exists out_pre out_post,
    fix_lines [] = Done out_pre /\ fix_lines [] = Done out_post /\
    fix_lines ([] ++ INNER_CLOSE :: [py "// a"] ++ OUTER_CLOSE :: py " " :: []
                 ++ BLOCK_OPEN :: []) =
      Done (out_pre ++ INNER_CLOSE :: [py "// a"] ++ py " " :: []
              ++ BLOCK_OPEN :: out_post).
Proof.
  apply (dropped_close_is_not_reinserted [] INNER_CLOSE [py "// a"] (py " ")
           [] []); [reflexivity|repeat constructor|reflexivity|constructor].
Defined.

(** X9. An insertion in front of a blank line does not survive the next run:
    where rule 1 has inserted [  },] before a run that starts with a blank
    line, rule 2 of the next run drops it.  When the lines before and after
    are left as they are by the scan, two runs give back the input. *)
Theorem insertion_before_blank_is_undone pre line blank buf post :
  is_inner_close line = true ->
  strip blank = py "" ->
  Forall (fun l => is_blank_or_comment l = true) buf ->
  let x := pre ++ line :: blank :: buf ++ BLOCK_OPEN :: post in
  exists p1 q1 p2 q2,
    fix_lines pre = Done p1 /\ fix_lines post = Done q1 /\
    fix_lines p1 = Done p2 /\ fix_lines q1 = Done q2 /\
    fix_lines x =
      Done (p1 ++ line :: OUTER_CLOSE :: blank :: buf ++ BLOCK_OPEN :: q1) /\
    bind (fix_lines x) fix_lines =
      Done (p2 ++ line :: blank :: buf ++ BLOCK_OPEN :: q2) /\
    (p1 = pre -> q1 = post -> bind (fix_lines x) fix_lines = Done x).
Proof.
  intros Hline Hblank Hbuf x.
  pose proof (inner_close_stops _ Hline) as Hstop.
  assert (H1 : patch x = patch pre ++ line :: OUTER_CLOSE :: blank :: buf
                           ++ BLOCK_OPEN :: patch post).
  { unfold x. rewrite (patch_app_stop _ _ _ Hstop). f_equal.
    rewrite (patch_trigger _ _ Hline).
    rewrite (blank_run_opens _ _ _ Hblank Hbuf).
    by rewrite (blank_run_patch _ _ _ Hblank Hbuf). }
  assert (H2 : patch (patch x) = patch (patch pre) ++ line :: blank :: buf
                                   ++ BLOCK_OPEN :: patch (patch post)).
  { rewrite H1, (patch_app_stop _ _ _ Hstop). f_equal.
    rewrite (patch_trigger _ _ Hline).
    rewrite (opens_stop _ _ outer_close_not_skipped).
    rewrite bool_decide_eq_false_2 by discriminate. simpl app.
    f_equal. by apply patch_dropped_close. }
  exists (patch pre), (patch post), (patch (patch pre)), (patch (patch post)).
  rewrite !fix_lines_patch. simpl. rewrite !fix_lines_patch.
  split; [done|]. split; [done|]. split; [done|]. split; [done|].
  split; [by rewrite H1|]. split; [by rewrite H2|].
  intros Hp Hq. rewrite H2, Hp, Hq, Hp, Hq. reflexivity.
Qed.

Lemma insertion_before_blank_is_undone_witness :
  let x := [py "const a = ["] ++ INNER_CLOSE :: py "" :: [py "// b"]
             ++ BLOCK_OPEN :: [py "    name: 1"] in
  bind (fix_lines x) fix_lines = Done x.
Proof.
  intros x.
  destruct (insertion_before_blank_is_undone [py "const a = ["] INNER_CLOSE
              (py "") [py "// b"] [py "    name: 1"])
    as (p1 & q1 & p2 & q2 & Hp1 & Hq1 & _ & _ & _ & _ & Hback);
    [reflexivity|reflexivity|repeat constructor|].
  apply Hback.
  - vm_compute in Hp1. by injection Hp1 as <-.
  - vm_compute in Hq1. by injection Hq1 as <-.
Defined.

(** ** Files without blank lines *)

Lemma patch_no_blank line rest :
  Forall (fun l => strip l <> py "") rest ->
  patch (line :: rest) =
    line :: (if is_inner_close line && opens rest then [OUTER_CLOSE] else [])
      ++ patch rest.
Proof.
  intros Hrest. cbn [patch]. unfold emit.
  destruct (is_inner_close line); simpl; [by destruct (opens rest)|].
  destruct (bool_decide (line = OUTER_CLOSE)); [|done].
  destruct Hrest as [|next_line rest Hnext _]; [done|].
  rewrite (bool_decide_eq_false_2 (strip next_line = py "")) by done.
  by destruct (bool_decide (next_line = BLOCK_OPEN)).
Qed.

Lemma patch_keeps_no_blank lines :
  Forall (fun l => strip l <> py "") lines ->
  Forall (fun l => strip l <> py "") (patch lines).
Proof.
  induction 1 as [|line rest Hline Hrest IH]; [constructor|].
  rewrite (patch_no_blank _ _ Hrest). constructor; [done|].
  apply Forall_app. split; [|done].
  destruct (_ && _); repeat constructor. discriminate.
Qed.

Lemma opens_patch_no_blank lines :
  Forall (fun l => strip l <> py "") lines ->
  opens (patch lines) = opens lines.
Proof.
  induction 1 as [|line rest Hline Hrest IH]; [reflexivity|].
  rewrite (patch_no_blank _ _ Hrest).
  destruct (is_blank_or_comment line) eqn:E.
  - rewrite (skipped_not_inner _ E). simpl.
    by rewrite !(opens_skipped _ _ E).
  - by rewrite !(opens_stop _ _ E).
Qed.

(** X10. When no line of the input is blank, rule 2 never drops a line and a
    second run returns what the first run returned. *)
Theorem idempotent_without_blank_lines lines :
  Forall (fun l => strip l <> py "") lines ->
  exists out, fix_lines lines = Done out /\ fix_lines out = Done out.
Proof.
  intros H. exists (patch lines). rewrite !fix_lines_patch.
  split; [done|]. f_equal.
  induction H as [|line rest Hline Hrest IH]; [reflexivity|].
  rewrite (patch_no_blank _ _ Hrest).
  pose proof (patch_keeps_no_blank _ Hrest) as Hout.
  destruct (is_inner_close line && opens rest) eqn:E; cbn [app].
  - apply andb_prop in E as [Hinner _].
    rewrite patch_no_blank
      by (constructor; [discriminate|done]).
    rewrite (opens_stop _ _ outer_close_not_skipped).
    rewrite (bool_decide_eq_false_2 (OUTER_CLOSE = BLOCK_OPEN)) by discriminate.
    rewrite andb_false_r. cbn [app]. f_equal.
    rewrite (patch_no_blank _ _ Hout), outer_close_not_inner. cbn [andb app].
    by rewrite IH.
  - rewrite (patch_no_blank _ _ Hout), (opens_patch_no_blank _ Hrest), E.
    cbn [app]. by rewrite IH.
Qed.

Lemma idempotent_without_blank_lines_witness :
  let lines := py <$> ["    },"; "  // next"; "  {"; "    },"; "  {"]%string in
  exists out, fix_lines lines = Done out /\ fix_lines out = Done out.
Proof.
  intros lines. apply (idempotent_without_blank_lines lines).
  repeat constructor; discriminate.
Defined.

(** ** The content written *)

Lemma split_no_sep sep p : sep ∉ p -> split sep p = [p].
Proof.
  induction p as [|c p IH]; [done|].
  intros [Hc Hp]%not_elem_of_cons. simpl.
  rewrite (proj2 (N.eqb_neq c sep)) by done. by rewrite (IH Hp).
Qed.

Lemma split_app_sep sep p s :
  sep ∉ p -> split sep (p ++ sep :: s) = p :: split sep s.
Proof.
  induction p as [|c p IH]; simpl.
  - intros _. by rewrite N.eqb_refl.
  - intros [Hc Hp]%not_elem_of_cons.
    rewrite (proj2 (N.eqb_neq c sep)) by done. by rewrite (IH Hp).
Qed.

Lemma split_join sep pieces :
  pieces <> [] -> Forall (fun p => sep ∉ p) pieces ->
  split sep (join sep pieces) = pieces.
Proof.
  intros Hne Hall. induction Hall as [|p pieces Hp Hall IH]; [done|].
  destruct pieces as [|q pieces].
  - simpl. by apply split_no_sep.
  - change (join sep (p :: q :: pieces))
      with (p ++ sep :: join sep (q :: pieces)).
    rewrite (split_app_sep _ _ _ Hp). f_equal. by apply IH.
Qed.

Lemma split_pieces sep s : Forall (fun p => sep ∉ p) (split sep s).
Proof.
  induction s as [|c s IH]; simpl.
  - repeat constructor. apply not_elem_of_nil.
  - destruct (N.eqb_spec c sep) as [->|Hne].
    + constructor; [apply not_elem_of_nil | done].
    + destruct (split sep s) as [|piece pieces].
      * repeat constructor. apply not_elem_of_cons. split; [done|].
        apply not_elem_of_nil.
      * inversion IH as [|? ? Hpiece Hpieces]; subst.
        constructor; [|done]. apply not_elem_of_cons. by split.
Qed.

Lemma emit_lines line rest l :
  l ∈ emit line rest -> l = line \/ l = OUTER_CLOSE.
Proof.
  unfold emit.
  repeat match goal with
         | |- context [if ?b then _ else _] => destruct b
         | |- context [match ?r with [] => _ | _ :: _ => _ end] => destruct r
         end;
    rewrite ?elem_of_cons, ?elem_of_nil; tauto.
Qed.

Lemma patch_lines lines l :
  l ∈ patch lines -> l ∈ lines \/ l = OUTER_CLOSE.
Proof.
  induction lines as [|line rest IH]; simpl; [by left|].
  rewrite elem_of_app, elem_of_cons.
  intros [[->| ->]%emit_lines|[?| ->]%IH]; tauto.
Qed.

Lemma emit_last line : emit line [] = [line].
Proof. unfold emit. by repeat case_match. Qed.

Lemma patch_last lines : last (patch lines) = last lines.
Proof.
  induction lines as [|line rest IH]; [done|].
  cbn [patch]. rewrite last_app, IH.
  destruct rest as [|y t]; [by rewrite emit_last|].
  rewrite last_cons_cons. by destruct (last_is_Some (y :: t)) as [_ [? ->]].
Qed.

(** X11. The content the script writes splits back into the result lines: no
    result line holds a newline (each is a line of the input or [  },]), and
    the result is never empty, as the last line of the input is always its
    last line. *)
Theorem written_content_reads_back content :
  exists result out,
    fix_lines (split NL content) = Done result /\
    fix_content content = Done out /\
    split NL out = result /\
    Forall (fun l => NL ∉ l) result /\
    last result = last (split NL content).
Proof.
  exists (patch (split NL content)), (join NL (patch (split NL content))).
  unfold fix_content. rewrite fix_lines_patch. simpl.
  split; [done|]. split; [done|].
  assert (Hno : Forall (fun l => NL ∉ l) (patch (split NL content))).
  { apply Forall_forall. intros l [Hl| ->]%patch_lines.
    - pose proof (split_pieces NL content) as Hall.
      rewrite Forall_forall in Hall. by apply Hall.
    - vm_compute. intros Hin.
      repeat (apply elem_of_cons in Hin as [Hin|Hin]; [discriminate Hin|]).
      by apply elem_of_nil in Hin. }
  split; [|split; [done|apply patch_last]].
  apply split_join; [|done].
  apply last_is_Some. rewrite patch_last. apply last_is_Some.
  by destruct (split_cons NL content) as (? & ? & ->).
Qed.

(** ** Blank and comment-only lines *)

Lemma lstrip_snoc_nonspace a c :
  isspace c = false -> lstrip (a ++ [c]) = lstrip a ++ [c].
Proof.
  intros Hc. induction a as [|x a IH]; simpl; [by rewrite Hc|].
  by destruct (isspace x).
Qed.

Lemma rstrip_cons_nonspace c s :
  isspace c = false -> rstrip (c :: s) = c :: rstrip s.
Proof.
  intros Hc. unfold rstrip. simpl rev.
  rewrite (lstrip_snoc_nonspace _ _ Hc), rev_app_distr. reflexivity.
Qed.

Lemma lstrip_all_space s : forallb isspace s = true -> lstrip s = [].
Proof.
  intros H. rewrite <- (app_nil_r s). by rewrite (lstrip_spaces _ _ H).
Qed.

Lemma strip_empty_iff line :
  strip line = py "" <-> forallb isspace line = true.
Proof.
  unfold strip. split.
  - intros Hstrip.
    destruct (lstrip_decompose line) as (ws1 & Hws1 & Hline).
    destruct (rstrip_decompose (lstrip line)) as (ws2 & Hws2 & Hrest).
    rewrite Hstrip in Hrest. simpl in Hrest.
    rewrite Hline, Hrest, forallb_app, Hws1, Hws2. reflexivity.
  - intros H. by rewrite (lstrip_all_space _ H).
Qed.

Lemma strip_comment_iff line :
  startswith (strip line) (py "//") = true <->
  exists ws t, forallb isspace ws = true /\ line = ws ++ py "//" ++ t.
Proof.
  split.
  - intros [t Ht]%startswith_inv. unfold strip in Ht.
    destruct (lstrip_decompose line) as (ws1 & Hws1 & Hline).
    destruct (rstrip_decompose (lstrip line)) as (ws2 & _ & Hrest).
    exists ws1, (t ++ ws2). split; [done|].
    rewrite Hline at 1. f_equal. rewrite Hrest at 1. rewrite Ht.
    by rewrite <- app_assoc.
  - intros (ws & t & Hws & ->). unfold strip.
    rewrite (lstrip_spaces _ _ Hws).
    change (lstrip (py "//" ++ t)) with (47%N :: 47%N :: t).
    by rewrite !rstrip_cons_nonspace.
Qed.

(** X12. The lines both lookaheads pass over: a line counts as blank exactly
    when all its characters are white space, and as a comment exactly when it
    is white space followed by [//] and anything. *)
Theorem blank_or_comment_shape line :
  (strip line = py "" <-> forallb isspace line = true) /\
  (is_blank_or_comment line = true <->
   forallb isspace line = true \/
   exists ws t, forallb isspace ws = true /\ line = ws ++ py "//" ++ t).
Proof.
  split; [apply strip_empty_iff|].
  unfold is_blank_or_comment. cbv zeta.
  rewrite orb_true_iff, bool_decide_eq_true.
  by rewrite strip_empty_iff, strip_comment_iff.
Qed.

Lemma blank_or_comment_shape_witness :
  is_blank_or_comment (9%N :: py "  // members of the next group") = true.
Proof.
  apply (proj2 (blank_or_comment_shape _)). right.
  exists (9%N :: py "  "), (py " members of the next group").
  split; reflexivity.
Defined.

(** ** The scan only looks ahead *)

Lemma emit_length line rest : length (emit line rest) <= 2.
Proof.
  unfold emit.
  repeat match goal with
         | |- context [if ?b then _ else _] => destruct b
         | |- context [match ?r with [] => _ | _ :: _ => _ end] => destruct r
         end; simpl; lia.
Qed.

Lemma patch_app_suffix pre s :
  exists a, patch (pre ++ s) = a ++ patch s /\ length a <= 2 * length pre.
Proof.
  induction pre as [|line pre (a & Ha & Hlen)].
  - exists []. split; [done|]. simpl. lia.
  - exists (emit line (pre ++ s) ++ a). simpl app. cbn [patch].
    rewrite Ha, <- app_assoc. split; [done|].
    rewrite length_app. pose proof (emit_length line (pre ++ s)).
    simpl length. lia.
Qed.

(** X13. What the scan returns for the lines from any point on does not depend
    on the lines before that point: the output of a file ends with the output
    of each of its suffixes, and at most two lines are output per line. *)
Theorem scan_never_looks_back pre s :
  exists a out_s out,
    fix_lines s = Done out_s /\
    fix_lines (pre ++ s) = Done out /\
    out = a ++ out_s /\
    length a <= 2 * length pre /\
    length out <= 2 * length (pre ++ s).
Proof.
  destruct (patch_app_suffix pre s) as (a & Ha & Hlen).
  destruct (patch_app_suffix (pre ++ s) []) as (b & Hb & Hlen').
  exists a, (patch s), (patch (pre ++ s)). rewrite !fix_lines_patch.
  split; [done|]. split; [done|]. split; [done|]. split; [done|].
  rewrite app_nil_r in Hb. rewrite Hb. simpl patch. rewrite app_nil_r. lia.
Qed.

(** X14. A blank or comment-only line triggers neither rule, is none of the
    marker lines, and is output unchanged, followed by the scan of the lines
    after it. *)
Theorem blank_or_comment_passes_through pre line post :
  is_blank_or_comment line = true ->
  is_inner_close line = false /\
  line <> OUTER_CLOSE /\ line <> BLOCK_OPEN /\
  exists a out_post,
    fix_lines post = Done out_post /\
    fix_lines (pre ++ line :: post) = Done (a ++ line :: out_post).
Proof.
  intros H. split; [by apply skipped_not_inner|].
  split; [by apply skipped_not_outer|]. split; [by apply skipped_not_open|].
  destruct (patch_app_suffix pre (line :: post)) as (a & Ha & _).
  exists a, (patch post). rewrite !fix_lines_patch. split; [done|].
  rewrite Ha. cbn [patch]. by rewrite (emit_skipped _ _ H).
Qed.

Lemma blank_or_comment_passes_through_witness :
  exists a out_post,
    fix_lines [BLOCK_OPEN] = Done out_post /\
    fix_lines ([INNER_CLOSE] ++ py "  // members" :: [BLOCK_OPEN]) =
      Done (a ++ py "  // members" :: out_post).
Proof.
  apply (blank_or_comment_passes_through [INNER_CLOSE] (py "  // members")
           [BLOCK_OPEN]). reflexivity.
Defined.
